(** * The code-agent workflow of [src/inngest/functions.ts]

  A shallow embedding of the Inngest function [codeAgentFunction]: the three
  sandbox tools of the coding agent, the [onResponse] lifecycle hook, the
  router, the error classification and the final [save-result] step.

  JavaScript values that the program handles are undefined, strings and
  references to plain objects used as string-keyed maps.  Objects live in a
  heap, so that two variables holding the same object see each other's
  writes.  Code that may throw runs in a state-and-exception monad in which
  the state survives a throw, as it does in JavaScript.  The body of a
  durable step runs apart from the code around it, which sees the value the
  body returned and what the body did to the sandbox, the console and the
  database. *)

From Stdlib Require Import String Ascii List Bool Arith Lia.
From stdpp Require Import base option list gmap strings fin_maps.
Import ListNotations.

(** ** JavaScript values *)

Module JS.

Abbreviation loc := nat.

Inductive value :=
| Undefined
| Str (s : string)
| Obj (l : loc).

Definition typeof (v : value) : string :=
  match v with
  | Undefined => "undefined"
  | Str _ => "string"
  | Obj _ => "object"
  end.

(** Truthiness of a value of type [string | undefined]: [undefined] and
    the empty string are falsy, every other string is truthy. *)
Definition truthy (s : option string) : bool :=
  match s with
  | None => false
  | Some EmptyString => false
  | Some (String _ _) => true
  end.

Fixpoint startsWith (s sub : string) : bool :=
  match sub, s with
  | EmptyString, _ => true
  | String c sub', String d s' => Ascii.eqb c d && startsWith s' sub'
  | String _ _, EmptyString => false
  end.

(** [s.includes(sub)]: [sub] occurs in [s] at some position. *)
Fixpoint includes (s sub : string) : bool :=
  startsWith s sub ||
  match s with
  | EmptyString => false
  | String _ s' => includes s' sub
  end.

Definition newline : string := String (ascii_of_nat 10) EmptyString.

End JS.
Import JS.

(** ** The world the workflow runs in *)

(** [interface AgentState]: at run time either field may still be
    undefined; [files], once defined, is a reference to an object. *)
Record AgentState := mkAgentState {
  summary : option string;
  files : option loc
}.

(** The [data] argument of [prisma.message.create]. *)
Record Fragment := mkFragment {
  sandboxUrl : string;
  title : string;
  fragment_files : option (gmap string string)
}.

Record MessageData := mkMessageData {
  projectId : string;
  content : option string;
  role : string;
  type : string;
  fragment : option Fragment
}.

(** The trigger event, [{ data: { value, projectId } }]. *)
Record Event := mkEvent {
  data_value : string;
  data_projectId : string
}.

(** What [codeAgentFunction] returns. *)
Record RunOutput := mkRunOutput {
  out_sandboxUrl : string;
  out_title : string;
  out_files : option (gmap string string);
  out_summary : option string
}.

(** ** Computations that may throw

    An exception is represented by its conversion to a string, which is all
    the program ever does with one (in a template literal and in
    ["Error: " + e]).  The state survives a throw. *)

Inductive Outcome (A : Type) :=
| Return (a : A)
| Throw (e : string).
Arguments Return {A} a.
Arguments Throw {A} e.

Definition M (W A : Type) : Type := W -> Outcome A * W.

Definition ret {W A} (a : A) : M W A := fun w => (Return a, w).

Definition throw {W A} (e : string) : M W A := fun w => (Throw e, w).

Definition bind {W A B} (m : M W A) (k : A -> M W B) : M W B :=
  fun w =>
    match m w with
    | (Return a, w') => k a w'
    | (Throw e, w') => (Throw e, w')
    end.

Declare Scope js_scope.
Delimit Scope js_scope with js.
Notation "x <- m ;; k" := (bind m (fun x => k))
  (at level 100, m at next level, right associativity) : js_scope.
Notation "m ;; k" := (bind m (fun _ => k))
  (at level 100, right associativity) : js_scope.
Local Open Scope js_scope.

(** [try { body } catch (e) { handler }] *)
Definition try_catch {W A} (body : M W A) (handler : string -> M W A) : M W A :=
  fun w =>
    match body w with
    | (Return a, w') => (Return a, w')
    | (Throw e, w') => handler e w'
    end.

(** The outcome of a [try] block, handed to the code after it. *)
Definition attempt {W A} (body : M W A) : M W (Outcome A) :=
  fun w => let (o, w') := body w in (Return o, w').

(** [for (const x of xs) { body }] *)
Fixpoint for_of {W A} (xs : list A) (body : A -> M W unit) : M W unit :=
  match xs with
  | [] => ret tt
  | x :: xs' => body x ;; for_of xs' body
  end.

(** [n] rounds of [step], each on the result of the one before. *)
Fixpoint iterate {W A} (n : nat) (step : A -> M W A) (a : A) : M W A :=
  match n with
  | O => ret a
  | S n' => a' <- step a ;; iterate n' step a'
  end.

(** ** The sandbox provider (@e2b/code-interpreter)

    The remote sandbox is an external service.  Its operations are taken as
    an interface over an abstract provider state [R]; each may throw. *)

Record Sandbox := mkSandbox { sandboxId : string }.

Record CommandResult := mkCommandResult {
  exitCode : Z;
  stdout : string;
  stderr : string
}.

(** A piece of output handed to the [onStdout] or [onStderr] callback while
    a command runs. *)
Inductive OutputChunk :=
| OnStdout (data : string)
| OnStderr (data : string).

Class SandboxProvider (R : Type) := {
  Sandbox_create : string -> R -> Outcome Sandbox * R;
  Sandbox_connect : string -> R -> Outcome Sandbox * R;
  commands_run : Sandbox -> string -> R -> list OutputChunk * Outcome CommandResult * R;
  files_write : Sandbox -> string -> string -> R -> Outcome unit * R;
  files_read : Sandbox -> string -> R -> Outcome string * R;
  getHost : Sandbox -> nat -> R -> string
}.

(** ** Agent-kit data the program handles *)

(** The step tools handed to a tool handler; [step] is optional there and
    the handlers call it as [step?.run]. *)
Inductive StepTools := InngestStep.

Inductive Role := role_system | role_user | role_assistant | role_tool_result.

Inductive Message :=
| TextMessage (r : Role) (text : string)
| ToolCallMessage (r : Role) (tools : list string)
| ToolResultMessage (r : Role) (tool : string) (result : string).

Record AgentResult := mkAgentResult {
  agentName : string;
  output : list Message
}.

(** The network handed to [onResponse]; its state is the world's
    [state_data]. *)
Inductive NetworkRun := TheNetwork.

Inductive Agent := codeAgent.

(** An entry of the [files] parameter of [createOrUpdateFiles]. *)
Record FileEntry := mkFileEntry {
  path : string;
  file_content : string
}.

(** ** JSON.stringify on an array of [{ path, content }] objects *)

Module Json.

Definition char (n : nat) : string := String (ascii_of_nat n) EmptyString.

Definition quote : string := char 34.

Definition hex_digit (n : nat) : string :=
  char (if (n <? 10)%nat then (48 + n)%nat else (87 + n)%nat).

Definition escape_char (c : ascii) : string :=
  let n := nat_of_ascii c in
  if (n =? 34)%nat then "\" +:+ quote
  else if (n =? 92)%nat then "\\"
  else if (n =? 8)%nat then "\b"
  else if (n =? 9)%nat then "\t"
  else if (n =? 10)%nat then "\n"
  else if (n =? 12)%nat then "\f"
  else if (n =? 13)%nat then "\r"
  else if (n <? 32)%nat then "\u00" +:+ hex_digit (n / 16) +:+ hex_digit (n mod 16)
  else String c EmptyString.

Fixpoint escape (s : string) : string :=
  match s with
  | EmptyString => EmptyString
  | String c s' => escape_char c +:+ escape s'
  end.

Definition string_literal (s : string) : string := quote +:+ escape s +:+ quote.

Definition entry (e : string * string) : string :=
  "{" +:+ quote +:+ "path" +:+ quote +:+ ":" +:+ string_literal (fst e) +:+ ","
      +:+ quote +:+ "content" +:+ quote +:+ ":" +:+ string_literal (snd e) +:+ "}".

Fixpoint join (sep : string) (l : list string) : string :=
  match l with
  | [] => EmptyString
  | [x] => x
  | x :: l' => x +:+ sep +:+ join sep l'
  end.

Definition stringify (contents : list (string * string)) : string :=
  "[" +:+ join "," (map entry contents) +:+ "]".

End Json.

(** ** The workflow *)

Section Workflow.

(** The state of the sandbox provider, left abstract. *)
Context {R : Type} `{SandboxProvider R}.

Record World := mkWorld {
  heap : list (gmap string string); (* the plain objects allocated so far *)
  state_data : AgentState;          (* network.state.data *)
  remote : R;                       (* the sandbox provider *)
  console : list string;            (* lines written by console.error *)
  messages : list MessageData       (* rows created by prisma.message.create *)
}.

Definition set_heap (h : list (gmap string string)) (w : World) : World :=
  mkWorld h (state_data w) (remote w) (console w) (messages w).

Definition set_state_data (d : AgentState) (w : World) : World :=
  mkWorld (heap w) d (remote w) (console w) (messages w).

Definition set_remote (r : R) (w : World) : World :=
  mkWorld (heap w) (state_data w) r (console w) (messages w).

Definition set_console (c : list string) (w : World) : World :=
  mkWorld (heap w) (state_data w) (remote w) c (messages w).

Definition set_messages (ms : list MessageData) (w : World) : World :=
  mkWorld (heap w) (state_data w) (remote w) (console w) ms.

(** *** Primitive effects *)

(** [network.state.data] *)
Definition get_state_data : M World AgentState :=
  fun w => (Return (state_data w), w).

(** [network.state.data.summary = s] *)
Definition assign_summary (s : string) : M World unit :=
  fun w => (Return tt, set_state_data (mkAgentState (Some s) (files (state_data w))) w).

(** [network.state.data.files = l] *)
Definition assign_files (l : loc) : M World unit :=
  fun w => (Return tt, set_state_data (mkAgentState (summary (state_data w)) (Some l)) w).

(** The object literal [{}]: a fresh empty object. *)
Definition new_object : M World loc :=
  fun w => (Return (length (heap w)), set_heap (heap w ++ [∅]) w).

(** [o[key] = v] on the plain object that [l] refers to, [v] a string.
    The key [__proto__] names the accessor inherited from Object.prototype,
    whose setter ignores a string: that assignment creates no property.
    Every reference the program holds comes from an allocation, so [l] is
    within the heap. *)
Definition object_assign (l : loc) (key v : string) : M World unit :=
  fun w =>
    (Return tt,
     if String.eqb key "__proto__" then w
     else set_heap (alter (<[key := v]>) l (heap w)) w).

(** The properties of the object that [l] refers to. *)
Definition object_at (w : World) (l : loc) : gmap string string :=
  default ∅ (heap w !! l).

Definition console_error (line : string) : M World unit :=
  fun w => (Return tt, set_console (console w ++ [line]) w).

Definition call_provider {A} (op : R -> Outcome A * R) : M World A :=
  fun w => let (o, r) := op (remote w) in (o, set_remote r w).

(** Modelled from the spec: [getSandbox] is defined in [./utils], outside
    the sources at hand; the spec gives it as [connect(sandboxId) ->
    sandboxHandle] on the sandbox provider. *)
Definition getSandbox (id : string) : M World Sandbox :=
  call_provider (Sandbox_connect id).

(** [prisma.message.create({ data })]: one more row.  A create that the
    database rejects is not modelled. *)
Definition prisma_message_create (data : MessageData) : M World MessageData :=
  fun w => (Return data, set_messages (messages w ++ [data]) w).

(** What the code after a step sees of the world the body of the step
    left: the sandbox provider, the console and the stored messages as the
    body left them, the heap and the shared state as they were before it. *)
Definition after_step (before inside : World) : World :=
  mkWorld (heap before) (state_data before)
    (remote inside) (console inside) (messages inside).

(** Modelled from the spec: [step.run] is the durable step of the Inngest
    runtime, outside the sources at hand.  The spec (4.1, 5, 6) gives it as
    [runStep(name, fn) -> result]: the body runs once, in an invocation that
    ends with it, and its result is replayed to the code after the step.
    That code therefore sees what the body did outside the function, and
    the value it returned, but not what it wrote to the function's memory.
    An exception of the body fails the step. *)
Definition step_run {A} (name : string) (fn : M World A) : M World A :=
  fun w => let (o, inside) := fn w in (o, after_step w inside).

(** A value of a step read back from its JSON text: a string as it is, an
    object as a fresh object with the properties it had when the body
    returned it. *)
Definition revive (inside : World) (v : value) : M World value :=
  match v with
  | Obj l =>
      fun w => (Return (Obj (length (heap w))),
                set_heap (heap w ++ [object_at inside l]) w)
  | _ => ret v
  end.

(** [step?.run(name, fn)]: undefined when there are no step tools. *)
Definition optional_step_run (step : option StepTools) (name : string)
    (fn : M World value) : M World value :=
  match step with
  | Some InngestStep =>
      fun w =>
        let (o, inside) := fn w in
        match o with
        | Return v => revive inside v (after_step w inside)
        | Throw e => (Throw e, after_step w inside)
        end
  | None => ret Undefined
  end.

(** *** The [terminal] tool *)

Record Buffers := mkBuffers {
  buffers_stdout : string;
  buffers_stderr : string
}.

(** The [onStdout] and [onStderr] callbacks. *)
Definition on_output (buffers : Buffers) (c : OutputChunk) : Buffers :=
  match c with
  | OnStdout data => mkBuffers (buffers_stdout buffers +:+ data) (buffers_stderr buffers)
  | OnStderr data => mkBuffers (buffers_stdout buffers) (buffers_stderr buffers +:+ data)
  end.

(** [sandbox.commands.run(command, { onStdout, onStderr })]: the callbacks
    have filled the buffers by the time the call returns or throws. *)
Definition sandbox_commands_run (sandbox : Sandbox) (command : string)
    (buffers : Buffers) : M World (Buffers * Outcome CommandResult) :=
  fun w =>
    let '(chunks, result, r) := commands_run sandbox command (remote w) in
    (Return (fold_left on_output chunks buffers, result), set_remote r w).

Definition command_failed (e : string) (buffers : Buffers) : string :=
  "Command failed: " +:+ e +:+ " " +:+ newline +:+
  "stdout: " +:+ buffers_stdout buffers +:+ newline +:+
  "stderror: " +:+ buffers_stderr buffers.

(** The [catch] block of the terminal step. *)
Definition terminal_catch (e : string) (buffers : Buffers) : M World value :=
  console_error (command_failed e buffers) ;;
  ret (Str (command_failed e buffers)).

Definition terminal_step (id command : string) : M World value :=
  let buffers := mkBuffers "" "" in
  connected <- attempt (getSandbox id) ;;
  match connected with
  | Throw e => terminal_catch e buffers
  | Return sandbox =>
      ran <- sandbox_commands_run sandbox command buffers ;;
      match ran with
      | (_, Return result) => ret (Str (stdout result))
      | (buffers, Throw e) => terminal_catch e buffers
      end
  end.

Definition terminal (id command : string) (step : option StepTools) : M World value :=
  optional_step_run step "terminal" (terminal_step id command).

(** *** The [createOrUpdateFiles] tool *)

(** [network.state.data.files || {}]: the object of the shared state itself
    when there is one, a fresh object otherwise. *)
Definition files_or_new : M World loc :=
  d <- get_state_data ;;
  match files d with
  | Some l => ret l
  | None => new_object
  end.

(** The body of the loop over the batch: write to the sandbox, then record
    the entry in [updatedFiles]. *)
Definition write_entry (sandbox : Sandbox) (updatedFiles : loc) (file : FileEntry)
    : M World unit :=
  call_provider (files_write sandbox (path file) (file_content file)) ;;
  object_assign updatedFiles (path file) (file_content file).

Definition createOrUpdateFiles_step (id : string) (batch : list FileEntry) : M World value :=
  try_catch
    (updatedFiles <- files_or_new ;;
     sandbox <- getSandbox id ;;
     for_of batch (write_entry sandbox updatedFiles) ;;
     ret (Obj updatedFiles))
    (fun e => ret (Str ("Error: " +:+ e))).

(** The handler has no [return] statement: it yields undefined. *)
Definition createOrUpdateFiles (id : string) (batch : list FileEntry)
    (step : option StepTools) : M World value :=
  newFiles <- optional_step_run step "createOrUpdateFiles"
                (createOrUpdateFiles_step id batch) ;;
  (if String.eqb (typeof newFiles) "object" then
     match newFiles with
     | Obj l => assign_files l
     | _ => ret tt
     end
   else ret tt) ;;
  ret Undefined.

(** *** The [readFiles] tool *)

Fixpoint read_each (sandbox : Sandbox) (paths : list string)
    (contents : list (string * string)) : M World (list (string * string)) :=
  match paths with
  | [] => ret contents
  | file :: rest =>
      content <- call_provider (files_read sandbox file) ;;
      read_each sandbox rest (contents ++ [(file, content)])
  end.

Definition readFiles_step (id : string) (paths : list string) : M World value :=
  try_catch
    (sandbox <- getSandbox id ;;
     contents <- read_each sandbox paths [] ;;
     ret (Str (Json.stringify contents)))
    (fun e => ret (Str ("Error: " +:+ e))).

Definition readFiles (id : string) (paths : list string)
    (step : option StepTools) : M World value :=
  optional_step_run step "readFiles" (readFiles_step id paths).

(** *** The [onResponse] lifecycle hook *)

Definition assistant_text (m : Message) : option string :=
  match m with
  | TextMessage role_assistant text => Some text
  | _ => None
  end.

(** Modelled from the spec: [lastAssistantTextMessageContent] is defined in
    [./utils], outside the sources at hand; the spec gives it as the last
    plain-text (non-tool-call) message emitted by the assistant role in the
    turn's transcript, if there is one. *)
Definition lastAssistantTextMessageContent (result : AgentResult) : option string :=
  last (omap assistant_text (output result)).

Definition task_summary_tag : string := "<task_summary>".

Definition onResponse (result : AgentResult) (network : option NetworkRun)
    : M World AgentResult :=
  let lastAssistantMessageText := lastAssistantTextMessageContent result in
  (if truthy lastAssistantMessageText && bool_decide (is_Some network) then
     match lastAssistantMessageText with
     | Some text =>
         if includes text task_summary_tag then assign_summary text else ret tt
     | None => ret tt
     end
   else ret tt) ;;
  ret result.

(** *** The router *)

(** [undefined] (here [None]) ends the network run. *)
Definition router (d : AgentState) : option Agent :=
  if truthy (summary d) then None else Some codeAgent.

(** *** The network run

    [createNetwork] and [network.run] belong to @inngest/agent-kit; the
    program configures them with one agent, [maxIter] and the router. *)

Definition maxIter : nat := 15.

(** What the model asks for in one turn: tool calls, then a result. *)
Inductive ToolCall :=
| CallTerminal (command : string)
| CallCreateOrUpdateFiles (batch : list FileEntry)
| CallReadFiles (paths : list string).

Record Turn := mkTurn {
  tool_calls : list ToolCall;
  turn_result : AgentResult
}.

Definition call_tool (id : string) (step : option StepTools) (c : ToolCall)
    : M World value :=
  match c with
  | CallTerminal command => terminal id command step
  | CallCreateOrUpdateFiles batch => createOrUpdateFiles id batch step
  | CallReadFiles paths => readFiles id paths step
  end.

(** Modelled from the spec: the agent's turn is run by agent-kit; the spec
    (4.2) gives it as executing the model's tool calls in sequence until a
    response has none, then invoking the lifecycle hook with the result and
    the shared state, and returning what the hook returns. *)
Definition agent_run (id : string) (t : Turn) : M World AgentResult :=
  for_of (tool_calls t) (fun c => call_tool id (Some InngestStep) c ;; ret tt) ;;
  onResponse (turn_result t) (Some TheNetwork).

Inductive OrchestratorState := RUNNING | HALTED_BY_ROUTER | HALTED_BY_LIMIT.

Record Orchestrator := mkOrchestrator {
  orchestrator_state : OrchestratorState;
  iteration_counter : nat;
  transcript : list AgentResult
}.

(** Modelled from the spec: the loop of [network.run] is agent-kit's; the
    spec (4.5) gives one transition as: while the iteration counter is below
    the maximum and the state is RUNNING, invoke the router; on halt go to
    HALTED_BY_ROUTER, else invoke the agent and increment the counter; when
    the counter reaches the maximum without a halt go to HALTED_BY_LIMIT. *)
Definition orchestrator_step (id : string) (llm : nat -> Turn) (o : Orchestrator)
    : M World Orchestrator :=
  match orchestrator_state o with
  | RUNNING =>
      if (iteration_counter o <? maxIter)%nat then
        d <- get_state_data ;;
        match router d with
        | None =>
            ret (mkOrchestrator HALTED_BY_ROUTER (iteration_counter o) (transcript o))
        | Some codeAgent =>
            result <- agent_run id (llm (iteration_counter o)) ;;
            ret (mkOrchestrator RUNNING (S (iteration_counter o)) (transcript o ++ [result]))
        end
      else
        ret (mkOrchestrator HALTED_BY_LIMIT (iteration_counter o) (transcript o))
  | _ => ret o
  end.

(** Modelled from the spec: [network.run] starts RUNNING with counter 0 and
    takes transitions until a terminal state; [maxIter] agent turns and one
    more transition always reach one. *)
Definition network_run (id : string) (llm : nat -> Turn) : M World Orchestrator :=
  iterate (S maxIter) (orchestrator_step id llm) (mkOrchestrator RUNNING 0 []).

(** *** Result aggregation *)

Definition Object_keys (o : gmap string string) : list string :=
  (map_to_list o).*1.

(** [result.state.data.files || {}] *)
Definition files_or_empty (w : World) : gmap string string :=
  match files (state_data w) with
  | Some l => object_at w l
  | None => ∅
  end.

Definition isError (w : World) : bool :=
  negb (truthy (summary (state_data w)))
  || (length (Object_keys (files_or_empty w)) =? 0)%nat.

(** The value of [result.state.data.files] as it is stored or returned. *)
Definition files_value (w : World) : option (gmap string string) :=
  object_at w <$> files (state_data w).

Definition get_world : M World World := fun w => (Return w, w).

Definition save_result (event : Event) (is_error : bool) (url : string)
    : M World MessageData :=
  step_run "save-result"
    (if is_error then
       prisma_message_create
         {| projectId := data_projectId event;
            content := Some "Something went wrong. Please try again.";
            role := "ASSISTANT";
            type := "ERROR";
            fragment := None |}
     else
       w <- get_world ;;
       prisma_message_create
         {| projectId := data_projectId event;
            content := summary (state_data w);
            role := "ASSISTANT";
            type := "RESULT";
            fragment := Some {| sandboxUrl := url;
                                title := "Fragment";
                                fragment_files := files_value w |} |}).

(** The function body of [codeAgentFunction]; [llm] stands for the model
    behind the agent, prompted with [event.data.value]. *)
Definition codeAgentFunction (llm : string -> nat -> Turn) (event : Event)
    : M World RunOutput :=
  created <- step_run "get-sandbox-id"
               (call_provider (Sandbox_create "lovableclone-test16")) ;;
  let id := sandboxId created in
  _ <- network_run id (llm (data_value event)) ;;
  result <- get_world ;;
  let is_error := isError result in
  url <- step_run "get-sandbox-url"
           (sandbox <- getSandbox id ;;
            w <- get_world ;;
            ret ("https://" +:+ getHost sandbox 3000 (remote w))) ;;
  _ <- save_result event is_error url ;;
  w <- get_world ;;
  ret {| out_sandboxUrl := url;
         out_title := "Fragment";
         out_files := files_value w;
         out_summary := summary (state_data w) |}.

(** *** Reachable worlds *)

(** The shared state a run starts with: no summary, and no files yet (the
    [files] field undefined, or an empty object). *)
Definition initial (w : World) : Prop :=
  summary (state_data w) = None /\
  match files (state_data w) with
  | None => True
  | Some l => heap w !! l = Some ∅
  end.

(** What a run does to the world, one operation at a time. *)
Inductive Operation :=
| DoTool (id : string) (step : option StepTools) (c : ToolCall)
| DoOnResponse (result : AgentResult) (network : option NetworkRun).

Definition perform (op : Operation) (w : World) : World :=
  match op with
  | DoTool id step c => snd (call_tool id step c w)
  | DoOnResponse result network => snd (onResponse result network w)
  end.

Inductive reachable : World -> Prop :=
| reachable_initial w : initial w -> reachable w
| reachable_perform w op : reachable w -> reachable (perform op w).

End Workflow.

Arguments World : clear implicits.

(** ** What the spec asks of the file-set *)

(** [s] contains [sub] as a substring. *)
Definition contains (s sub : string) : Prop :=
  exists before after, s = before +:+ sub +:+ after.

(** The text received on standard output, and on standard error, in the
    chunks a command has produced. *)
Fixpoint captured_stdout (chunks : list OutputChunk) : string :=
  match chunks with
  | [] => ""
  | OnStdout data :: rest => data +:+ captured_stdout rest
  | OnStderr _ :: rest => captured_stdout rest
  end.

Fixpoint captured_stderr (chunks : list OutputChunk) : string :=
  match chunks with
  | [] => ""
  | OnStdout _ :: rest => captured_stderr rest
  | OnStderr data :: rest => data +:+ captured_stderr rest
  end.

(** One batch applied to a file-set: entries in sequence order, a later
    write to a path replacing the earlier one. *)
Definition apply_batch (m : gmap string string) (batch : list FileEntry)
    : gmap string string :=
  fold_left (fun acc file => <[path file := file_content file]> acc) batch m.

(** The left fold of the batches, in call order, over the empty map. *)
Definition apply_batches (batches : list (list FileEntry)) : gmap string string :=
  fold_left apply_batch batches ∅.

Section Batches.

Context {R : Type} `{SandboxProvider R}.

(** [same_shared w w'] says that the heap, the shared state and the stored
    messages of [w'] are those of [w]: at most the sandbox provider and the
    console have changed. *)
Definition same_shared (w w' : World R) : Prop :=
  heap w' = heap w /\ state_data w' = state_data w /\ messages w' = messages w.

(** A summary, once there is one, carries the completion tag. *)
Definition summary_tagged (w : World R) : Prop :=
  forall s, summary (state_data w) = Some s -> includes s task_summary_tag = true.

(** The reference held in [files], if any, points into the heap. *)
Definition files_allocated (w : World R) : Prop :=
  match files (state_data w) with
  | Some l => (l < length (heap w))%nat
  | None => True
  end.

(** The step of a batch completes without throwing. *)
Definition batch_succeeds (id : string) (batch : list FileEntry) (w : World R) : bool :=
  match fst (createOrUpdateFiles_step id batch w) with
  | Return (Obj _) => true
  | _ => false
  end.

(** The tool called once per batch, in order. *)
Definition write_batches (id : string) (batches : list (list FileEntry))
    : M (World R) unit :=
  for_of batches (fun batch =>
    createOrUpdateFiles id batch (Some InngestStep) ;; ret tt).

Fixpoint batches_succeed (id : string) (batches : list (list FileEntry))
    (w : World R) : bool :=
  match batches with
  | [] => true
  | batch :: rest =>
      batch_succeeds id batch w
      && batches_succeed id rest
           (snd (createOrUpdateFiles id batch (Some InngestStep) w))
  end.

End Batches.

(** ** Reading a batch entry by entry *)

(** Whether an entry names a property that an assignment can create. *)
Definition creates_property (file : FileEntry) : bool :=
  negb (String.eqb (path file) "__proto__").

(** The entries of a batch that an assignment records. *)
Definition own_entries (batch : list FileEntry) : list FileEntry :=
  List.filter creates_property batch.

(** The content the last entry for path [p] in the batch carries, if the
    batch names [p] at all. *)
Fixpoint last_write (p : string) (batch : list FileEntry) : option string :=
  match batch with
  | [] => None
  | file :: rest =>
      match last_write p rest with
      | Some c => Some c
      | None => if String.eqb (path file) p then Some (file_content file) else None
      end
  end.

Section Traces.

Context {R : Type} `{SandboxProvider R}.

(** What [readFiles] asks of the sandbox: the paths read one after the
    other, each from the provider state the read before it left, up to the
    first read that throws. *)
Fixpoint sandbox_reads (sandbox : Sandbox) (paths : list string) (r : R)
    : Outcome (list (string * string)) * R :=
  match paths with
  | [] => (Return [], r)
  | p :: rest =>
      match files_read sandbox p r with
      | (Throw e, r') => (Throw e, r')
      | (Return c, r') =>
          match sandbox_reads sandbox rest r' with
          | (Return contents, r'') => (Return ((p, c) :: contents), r'')
          | (Throw e, r'') => (Throw e, r'')
          end
      end
  end.

(** Operations performed one after the other. *)
Definition perform_all (ops : list Operation) (w : World R) : World R :=
  fold_left (fun acc op => perform op acc) ops w.

End Traces.

(** ** A sandbox provider to run the workflow on

    An in-memory file system.  Writing to [/proc/version] is refused, the
    command [false] fails after some output, and only the sandbox [sbx-1]
    exists. *)

Module Demo.

Definition connect (id : string) (fs : gmap string string)
    : Outcome Sandbox * gmap string string :=
  if String.eqb id "sbx-1" then (Return (mkSandbox id), fs)
  else (Throw "NotFoundError: sandbox not found", fs).

Definition run (sandbox : Sandbox) (command : string) (fs : gmap string string)
    : list OutputChunk * Outcome CommandResult * gmap string string :=
  if String.eqb command "false" then
    ([OnStdout "starting"; OnStderr "boom"], Throw "CommandExitError: exit status 1", fs)
  else
    ([OnStdout command], Return (mkCommandResult 0 command ""), fs).

Definition write (sandbox : Sandbox) (p c : string) (fs : gmap string string)
    : Outcome unit * gmap string string :=
  if String.eqb p "/proc/version" then (Throw "Error: permission denied", fs)
  else (Return tt, <[p := c]> fs).

Definition read (sandbox : Sandbox) (p : string) (fs : gmap string string)
    : Outcome string * gmap string string :=
  match fs !! p with
  | Some c => (Return c, fs)
  | None => (Throw "NotFoundError: no such file", fs)
  end.

#[export] Instance provider : SandboxProvider (gmap string string) := {|
  Sandbox_create := fun _ fs => (Return (mkSandbox "sbx-1"), fs);
  Sandbox_connect := connect;
  commands_run := run;
  files_write := write;
  files_read := read;
  getHost := fun sandbox port fs => "3000-" +:+ sandboxId sandbox +:+ ".e2b.app"
|}.

(** A world at the start of a run. *)
Definition world0 : World (gmap string string) :=
  mkWorld [] (mkAgentState None None) (∅ : gmap string string) [] [].

Definition hello_batch : list FileEntry :=
  [mkFileEntry "index.html" "<h1>Hello</h1>"].

Definition failing_batch : list FileEntry :=
  [mkFileEntry "app/page.tsx" "export default 1"; mkFileEntry "/proc/version" "x";
   mkFileEntry "app/late.tsx" "never written"].

Definition done_text : string :=
  "<task_summary>Created hello-world page</task_summary>".

Definition done_result : AgentResult :=
  mkAgentResult "code-agent" [TextMessage role_assistant done_text].

(** A model that writes the page in its first turn and reports completion. *)
Definition hello_llm (prompt : string) (iteration : nat) : Turn :=
  mkTurn [CallCreateOrUpdateFiles hello_batch] done_result.

(** A model that keeps running a command and never reports completion. *)
Definition busy_llm (prompt : string) (iteration : nat) : Turn :=
  mkTurn [CallTerminal "ls"]
    (mkAgentResult "code-agent" [TextMessage role_assistant "still working"]).

Definition proto_batch : list FileEntry :=
  [mkFileEntry "__proto__" "x"].

Definition hello_event : Event := mkEvent "create a hello-world page" "project-1".

(** The world after the hook has seen the completion message. *)
Definition done_world : World (gmap string string) :=
  perform (DoOnResponse done_result (Some TheNetwork)) world0.

(** The world after the first batch has been written. *)
Definition hello_world : World (gmap string string) :=
  snd (createOrUpdateFiles "sbx-1" hello_batch (Some InngestStep) world0).

Definition update_batch : list FileEntry :=
  [mkFileEntry "app/page.tsx" "v1"; mkFileEntry "index.html" "<h1>Hi</h1>";
   mkFileEntry "app/page.tsx" "v2"].

(** The run of [hello_llm]: what it returns and the world it leaves. *)
Definition hello_output : RunOutput :=
  mkRunOutput "https://3000-sbx-1.e2b.app" "Fragment"
    (Some {[ "index.html" := "<h1>Hello</h1>" ]}) (Some done_text).

Definition hello_final : World (gmap string string) :=
  snd (codeAgentFunction hello_llm hello_event world0).

End Demo.

(** ** A provider that is out of reach

    Every operation throws; the provider has no state. *)

Module Offline.

Definition unreachable : string := "Error: 503 sandbox service unavailable".

#[export] Instance offline_provider : SandboxProvider unit := {|
  Sandbox_create := fun _ r => (Throw unreachable, r);
  Sandbox_connect := fun _ r => (Throw unreachable, r);
  commands_run := fun _ _ r => ([], Throw unreachable, r);
  files_write := fun _ _ _ r => (Throw unreachable, r);
  files_read := fun _ _ r => (Throw unreachable, r);
  getHost := fun _ _ _ => ""
|}.


End Offline.

(** ** A provider whose sandbox has expired

    Sandboxes are created, but nothing connects to them any more. *)

Module Expired.

Definition expired : string := "NotFoundError: sandbox expired".

Record Lease := mkLease { created_sandboxes : nat }.

#[export] Instance expired_provider : SandboxProvider Lease := {|
  Sandbox_create := fun _ r =>
    (Return (mkSandbox "sbx-old"), mkLease (S (created_sandboxes r)));
  Sandbox_connect := fun _ r => (Throw expired, r);
  commands_run := fun _ _ r => ([], Throw expired, r);
  files_write := fun _ _ _ r => (Throw expired, r);
  files_read := fun _ _ r => (Throw expired, r);
  getHost := fun _ _ _ => ""
|}.

Definition expired_world : World Lease :=
  mkWorld [] (mkAgentState None None) (mkLease 0) [] [].

(** The world the network run of [Demo.hello_llm] leaves on this provider:
    the batch fails, the model reports completion all the same. *)
Definition expired_after_run : World Lease :=
  snd (network_run "sbx-old" (Demo.hello_llm "create a hello-world page")
         (set_remote (mkLease 1) expired_world)).

End Expired.

(** * Properties *)

(** ** Strings *)

Lemma app_assoc (a b c : string) : (a +:+ b) +:+ c = a +:+ b +:+ c.
Proof.
  induction a as [|x a IH]; [reflexivity|].
  change (String x ((a +:+ b) +:+ c) = String x (a +:+ b +:+ c)).
  now rewrite IH.
Qed.

Lemma app_empty_r (a : string) : a +:+ "" = a.
Proof.
  induction a as [|x a IH]; [reflexivity|].
  change (String x (a +:+ "") = String x a). now rewrite IH.
Qed.

Lemma startsWith_spec (sub s : string) :
  startsWith s sub = true <-> exists after, s = sub +:+ after.
Proof.
  revert s. induction sub as [|c sub IH]; intros s.
  - destruct s; (split; [intros _; eexists; reflexivity | reflexivity]).
  - destruct s as [|d s]; cbn [startsWith].
    + split; [discriminate | intros [after Ha]; discriminate].
    + rewrite andb_true_iff, Ascii.eqb_eq, IH. split.
      * intros [-> [after ->]]. now exists after.
      * intros [after Ha]. injection Ha as -> ->. split; [reflexivity | now exists after].
Qed.

Lemma includes_contains (s sub : string) :
  includes s sub = true <-> contains s sub.
Proof.
  induction s as [|c s IH]; cbn [includes]; rewrite orb_true_iff, startsWith_spec.
  - split.
    + intros [[after Ha] | Hf]; [| discriminate]. now exists "", after.
    + intros [before [after Ha]]. left. destruct before; [now exists after | discriminate].
  - rewrite IH. split.
    + intros [[after Ha] | [before [after Ha]]].
      * now exists "", after.
      * exists (String c before), after. now rewrite Ha.
    + intros [before [after Ha]]. destruct before as [|d before].
      * left. now exists after.
      * right. injection Ha as -> ->. now exists before, after.
Qed.

Lemma contains_self (before sub after : string) :
  includes (before +:+ sub +:+ after) sub = true.
Proof. apply includes_contains. now exists before, after. Qed.

Lemma contains_nonempty (s sub : string) :
  contains s sub -> sub <> "" -> s <> "".
Proof.
  intros [before [after ->]] Hsub Hs.
  destruct before; [destruct sub; [congruence | discriminate] | discriminate].
Qed.

Lemma truthy_Some (s : string) : truthy (Some s) = true <-> s <> "".
Proof. destruct s; cbn; split; congruence. Qed.

Lemma truthy_is_Some (o : option string) :
  truthy o = true <-> exists s, o = Some s /\ s <> "".
Proof.
  destruct o as [[|c s]|]; cbn [truthy]; split; try discriminate.
  - intros [s [[= <-] Hs]]. congruence.
  - intros _. eexists. split; [reflexivity | discriminate].
  - reflexivity.
  - intros [s [[=] _]].
Qed.

Section Properties.

Context {R : Type} `{SandboxProvider R}.

(** ** Frame conditions *)

Lemma same_shared_refl (w : World R) : same_shared w w.
Proof. now repeat split. Qed.

Lemma same_shared_trans (w1 w2 w3 : World R) :
  same_shared w1 w2 -> same_shared w2 w3 -> same_shared w1 w3.
Proof. unfold same_shared. intros (-> & -> & ->) (-> & -> & ->). now repeat split. Qed.

Lemma call_provider_same_shared {A} (op : R -> Outcome A * R) (w : World R) :
  same_shared w (snd (call_provider op w)).
Proof. unfold call_provider. destruct (op (remote w)). now repeat split. Qed.

(** The terminal step, by cases on what the provider does. *)
Lemma terminal_step_cases (id command : string) (w : World R) :
  terminal_step id command w =
  match Sandbox_connect id (remote w) with
  | (Throw e, r1) =>
      let report := command_failed e (mkBuffers "" "") in
      (Return (Str report),
       mkWorld (heap w) (state_data w) r1 (console w ++ [report]) (messages w))
  | (Return sandbox, r1) =>
      match commands_run sandbox command r1 with
      | (_, Return result, r2) =>
          (Return (Str (stdout result)),
           mkWorld (heap w) (state_data w) r2 (console w) (messages w))
      | (chunks, Throw e, r2) =>
          let report := command_failed e (fold_left on_output chunks (mkBuffers "" "")) in
          (Return (Str report),
           mkWorld (heap w) (state_data w) r2 (console w ++ [report]) (messages w))
      end
  end.
Proof.
  unfold terminal_step, bind, attempt, getSandbox, call_provider.
  destruct (Sandbox_connect id (remote w)) as [[sandbox|e] r1]; [|reflexivity].
  unfold sandbox_commands_run. cbn [remote set_remote].
  destruct (commands_run sandbox command r1) as [[chunks [result|e]] r2]; reflexivity.
Qed.

(** ** Durable steps *)

Lemma after_step_same_shared (w inside : World R) :
  heap inside = heap w -> state_data inside = state_data w -> after_step w inside = inside.
Proof. destruct inside. cbn. now intros -> ->. Qed.

(** A step whose body leaves the heap and the shared state alone, and
    returns no object, is seen from outside as the body itself. *)
Lemma optional_step_run_keeps (name : string) (fn : M (World R) value) (w : World R) :
  same_shared w (snd (fn w)) ->
  (forall l, fst (fn w) <> Return (Obj l)) ->
  optional_step_run (Some InngestStep) name fn w = fn w.
Proof.
  unfold optional_step_run. destruct (fn w) as [o inside]. cbn [fst snd].
  intros (Hh & Hd & _) Hno. rewrite (after_step_same_shared w inside Hh Hd).
  destruct o as [[| s | l]|e]; try reflexivity. now destruct (Hno l).
Qed.

Lemma step_run_keeps {A} (name : string) (fn : M (World R) A) (w : World R) :
  same_shared w (snd (fn w)) -> step_run name fn w = fn w.
Proof.
  unfold step_run. destruct (fn w) as [o inside]. cbn [snd].
  intros (Hh & Hd & _). now rewrite (after_step_same_shared w inside Hh Hd).
Qed.

Lemma terminal_step_same_shared (id command : string) (w : World R) :
  (exists s, fst (terminal_step id command w) = Return (Str s)) /\
  same_shared w (snd (terminal_step id command w)).
Proof.
  rewrite terminal_step_cases.
  destruct (Sandbox_connect id (remote w)) as [[sandbox|e] r1];
    [|split; [eauto | now repeat split]].
  destruct (commands_run sandbox command r1) as [[chunks [result|e]] r2];
    (split; [eauto | now repeat split]).
Qed.

Lemma terminal_run (id command : string) (w : World R) :
  terminal id command (Some InngestStep) w = terminal_step id command w.
Proof.
  destruct (terminal_step_same_shared id command w) as [[s Hs] Hsame].
  apply optional_step_run_keeps; [exact Hsame | congruence].
Qed.

Lemma terminal_returns (id command : string) (step : option StepTools) (w : World R) :
  exists v, fst (terminal id command step w) = Return v.
Proof.
  destruct step as [[]|]; [|now exists Undefined].
  rewrite terminal_run.
  rewrite terminal_step_cases.
  destruct (Sandbox_connect id (remote w)) as [[sandbox|e] r1]; [|eauto].
  destruct (commands_run sandbox command r1) as [[chunks [result|e]] r2]; eauto.
Qed.

Lemma terminal_same_shared (id command : string) (step : option StepTools) (w : World R) :
  same_shared w (snd (terminal id command step w)).
Proof.
  destruct step as [[]|]; [|apply same_shared_refl].
  rewrite terminal_run.
  rewrite terminal_step_cases.
  destruct (Sandbox_connect id (remote w)) as [[sandbox|e] r1]; [|now repeat split].
  destruct (commands_run sandbox command r1) as [[chunks [result|e]] r2]; now repeat split.
Qed.

(** ** The readFiles tool *)

Lemma read_each_same_shared (sandbox : Sandbox) (paths : list string)
    (contents : list (string * string)) (w : World R) :
  same_shared w (snd (read_each sandbox paths contents w)).
Proof.
  revert contents w. induction paths as [|file rest IH]; intros contents w.
  - apply same_shared_refl.
  - cbn [read_each]. unfold bind.
    pose proof (call_provider_same_shared (files_read sandbox file) w) as Hc.
    destruct (call_provider (files_read sandbox file) w) as [[content|e] w1]; [|exact Hc].
    eapply same_shared_trans; [exact Hc | apply IH].
Qed.

Lemma readFiles_step_spec (id : string) (paths : list string) (w : World R) :
  (exists s, fst (readFiles_step id paths w) = Return (Str s)) /\
  same_shared w (snd (readFiles_step id paths w)).
Proof.
  unfold readFiles_step, try_catch, bind, getSandbox.
  pose proof (call_provider_same_shared (Sandbox_connect id) w) as Hc.
  destruct (call_provider (Sandbox_connect id) w) as [[sandbox|e] w1]; [|split; eauto].
  pose proof (read_each_same_shared sandbox paths [] w1) as Hr.
  destruct (read_each sandbox paths [] w1) as [[contents|e] w2];
    (split; [eauto | eapply same_shared_trans; eassumption]).
Qed.

Lemma readFiles_run (id : string) (paths : list string) (w : World R) :
  readFiles id paths (Some InngestStep) w = readFiles_step id paths w.
Proof.
  destruct (readFiles_step_spec id paths w) as [[s Hs] Hsame].
  apply optional_step_run_keeps; [exact Hsame | congruence].
Qed.

Lemma readFiles_returns (id : string) (paths : list string) (step : option StepTools)
    (w : World R) :
  exists v, fst (readFiles id paths step w) = Return v.
Proof.
  destruct step as [[]|]; [|now exists Undefined].
  rewrite readFiles_run.
  destruct (readFiles_step_spec id paths w) as [[s Hs] _]. eauto.
Qed.

Lemma readFiles_same_shared (id : string) (paths : list string)
    (step : option StepTools) (w : World R) :
  same_shared w (snd (readFiles id paths step w)).
Proof.
  destruct step as [[]|]; [|apply same_shared_refl].
  rewrite readFiles_run.
  apply readFiles_step_spec.
Qed.

(** ** The createOrUpdateFiles tool *)


Lemma for_of_write_entry (sandbox : Sandbox) (l : loc) (file : FileEntry)
    (rest : list FileEntry) (w : World R) :
  for_of (file :: rest) (write_entry sandbox l) w =
  match files_write sandbox (path file) (file_content file) (remote w) with
  | (Return _, r1) =>
      for_of rest (write_entry sandbox l)
        (snd (object_assign l (path file) (file_content file) (set_remote r1 w)))
  | (Throw e, r1) => (Throw e, set_remote r1 w)
  end.
Proof.
  cbn [for_of]. unfold bind, write_entry, call_provider, bind.
  destruct (files_write sandbox (path file) (file_content file) (remote w))
    as [[[]|e] r1]; reflexivity.
Qed.

Lemma object_assign_frame (l : loc) (key v : string) (w : World R) :
  state_data (snd (object_assign l key v w)) = state_data w /\
  messages (snd (object_assign l key v w)) = messages w /\
  console (snd (object_assign l key v w)) = console w /\
  remote (snd (object_assign l key v w)) = remote w /\
  length (heap (snd (object_assign l key v w))) = length (heap w).
Proof.
  unfold object_assign. cbn [snd].
  destruct (String.eqb key "__proto__"); cbn; rewrite ?length_alter; now repeat split.
Qed.

Lemma object_assign_object (l : loc) (key v : string) (w : World R) :
  (l < length (heap w))%nat ->
  object_at (snd (object_assign l key v w)) l
  = if String.eqb key "__proto__" then object_at w l else <[key := v]> (object_at w l).
Proof.
  intros Hl. unfold object_assign. cbn [snd].
  destruct (String.eqb key "__proto__"); [reflexivity|].
  unfold object_at. cbn [heap set_heap]. rewrite list_lookup_alter_eq.
  destruct (lookup_lt_is_Some_2 (heap w) l Hl) as [o ->]. reflexivity.
Qed.

Lemma write_loop_frame (sandbox : Sandbox) (l : loc) (batch : list FileEntry) (w : World R) :
  state_data (snd (for_of batch (write_entry sandbox l) w)) = state_data w /\
  messages (snd (for_of batch (write_entry sandbox l) w)) = messages w /\
  length (heap (snd (for_of batch (write_entry sandbox l) w))) = length (heap w).
Proof.
  revert w. induction batch as [|file rest IH]; intros w; [now repeat split|].
  rewrite for_of_write_entry.
  destruct (files_write sandbox (path file) (file_content file) (remote w)) as [[[]|e] r1];
    [|now repeat split].
  destruct (IH (snd (object_assign l (path file) (file_content file) (set_remote r1 w))))
    as (-> & -> & ->).
  destruct (object_assign_frame l (path file) (file_content file) (set_remote r1 w))
    as (-> & -> & _ & _ & ->).
  now repeat split.
Qed.

Lemma write_loop_console (sandbox : Sandbox) (l : loc) (batch : list FileEntry) (w : World R) :
  console (snd (for_of batch (write_entry sandbox l) w)) = console w.
Proof.
  revert w. induction batch as [|file rest IH]; intros w; [reflexivity|].
  rewrite for_of_write_entry.
  destruct (files_write sandbox (path file) (file_content file) (remote w)) as [[[]|e] r1];
    [|reflexivity].
  rewrite IH.
  now destruct (object_assign_frame l (path file) (file_content file) (set_remote r1 w))
    as (_ & _ & -> & _).
Qed.

(** A loop that completes has recorded, in the object it writes to, every
    entry of the batch that creates a property. *)
Lemma write_loop_success (sandbox : Sandbox) (l : loc) (batch : list FileEntry) (w : World R) :
  (l < length (heap w))%nat ->
  fst (for_of batch (write_entry sandbox l) w) = Return tt ->
  object_at (snd (for_of batch (write_entry sandbox l) w)) l
  = apply_batch (object_at w l) (own_entries batch).
Proof.
  revert w. induction batch as [|file rest IH]; intros w Hl; [reflexivity|].
  rewrite for_of_write_entry.
  destruct (files_write sandbox (path file) (file_content file) (remote w)) as [[[]|e] r1];
    [|discriminate].
  intros Hok.
  pose proof (object_assign_frame l (path file) (file_content file) (set_remote r1 w))
    as (_ & _ & _ & _ & Hlen).
  rewrite IH; [| now rewrite Hlen | exact Hok].
  rewrite object_assign_object by exact Hl.
  unfold own_entries. cbn [List.filter]. unfold creates_property at 2.
  destruct (String.eqb (path file) "__proto__"); reflexivity.
Qed.

Lemma files_or_new_frame (w : World R) :
  (exists l, fst (files_or_new w) = Return l) /\
  state_data (snd (files_or_new w)) = state_data w /\
  messages (snd (files_or_new w)) = messages w /\
  (length (heap w) <= length (heap (snd (files_or_new w))))%nat.
Proof.
  unfold files_or_new, bind, get_state_data.
  destruct (files (state_data w)) as [l|]; cbn.
  - repeat split; eauto.
  - repeat split; eauto. rewrite length_app. lia.
Qed.

Lemma files_or_new_spec (w : World R) (l : loc) :
  files_allocated w ->
  fst (files_or_new w) = Return l ->
  (l < length (heap (snd (files_or_new w))))%nat /\
  object_at (snd (files_or_new w)) l = files_or_empty w.
Proof.
  unfold files_allocated, files_or_new, files_or_empty, bind, get_state_data.
  destruct (files (state_data w)) as [l'|]; cbn; intros Hl [= <-].
  - now split.
  - split.
    + rewrite length_app. cbn. lia.
    + unfold object_at. cbn. now rewrite lookup_app_r, Nat.sub_diag by lia.
Qed.

Lemma createOrUpdateFiles_step_cases (id : string) (batch : list FileEntry) (w : World R) :
  createOrUpdateFiles_step id batch w =
  match files_or_new w with
  | (Throw e, w1) => (Return (Str ("Error: " +:+ e)), w1)
  | (Return l, w1) =>
      match call_provider (Sandbox_connect id) w1 with
      | (Throw e, w2) => (Return (Str ("Error: " +:+ e)), w2)
      | (Return sandbox, w2) =>
          match for_of batch (write_entry sandbox l) w2 with
          | (Return _, w3) => (Return (Obj l), w3)
          | (Throw e, w3) => (Return (Str ("Error: " +:+ e)), w3)
          end
      end
  end.
Proof.
  unfold createOrUpdateFiles_step, try_catch, bind, getSandbox.
  destruct (files_or_new w) as [[l|e] w1]; [|reflexivity].
  destruct (call_provider (Sandbox_connect id) w1) as [[sandbox|e] w2]; [|reflexivity].
  destruct (for_of batch (write_entry sandbox l) w2) as [[[]|e] w3]; reflexivity.
Qed.

(** The body of the step never throws: it returns an object, or the text
    ["Error: "] followed by the exception; it leaves the fields of the
    shared state, the stored messages and the console alone. *)
Lemma createOrUpdateFiles_step_frame (id : string) (batch : list FileEntry) (w : World R) :
  ((exists l, fst (createOrUpdateFiles_step id batch w) = Return (Obj l)) \/
   (exists e, fst (createOrUpdateFiles_step id batch w) = Return (Str ("Error: " +:+ e)))) /\
  state_data (snd (createOrUpdateFiles_step id batch w)) = state_data w /\
  messages (snd (createOrUpdateFiles_step id batch w)) = messages w /\
  console (snd (createOrUpdateFiles_step id batch w)) = console w.
Proof.
  destruct (files_or_new_frame w) as ([l Hl] & Hd & Hm & _).
  assert (Hn : console (snd (files_or_new w)) = console w).
  { unfold files_or_new, bind, get_state_data. now destruct (files (state_data w)). }
  rewrite createOrUpdateFiles_step_cases.
  destruct (files_or_new w) as [o w1]. cbn [fst snd] in *. subst o.
  pose proof (call_provider_same_shared (Sandbox_connect id) w1) as (Hh2 & Hd2 & Hm2).
  assert (Hc : console (snd (call_provider (Sandbox_connect id) w1)) = console w1).
  { unfold call_provider. now destruct (Sandbox_connect id (remote w1)). }
  destruct (call_provider (Sandbox_connect id) w1) as [[sandbox|e] w2]; cbn [fst snd] in *.
  2:{ rewrite Hd2, Hm2, Hc. repeat split; eauto. }
  pose proof (write_loop_frame sandbox l batch w2) as (Hd3 & Hm3 & _).
  pose proof (write_loop_console sandbox l batch w2) as Hc3.
  destruct (for_of batch (write_entry sandbox l) w2) as [[[]|e] w3]; cbn [fst snd] in *;
    rewrite Hd3, Hm3, Hc3, Hd2, Hm2, Hc; repeat split; eauto.
Qed.

(** An object the body returns holds the file-set the shared state had,
    with the batch applied. *)
Lemma createOrUpdateFiles_step_success (id : string) (batch : list FileEntry)
    (w : World R) (l : loc) :
  files_allocated w ->
  fst (createOrUpdateFiles_step id batch w) = Return (Obj l) ->
  object_at (snd (createOrUpdateFiles_step id batch w)) l
  = apply_batch (files_or_empty w) (own_entries batch).
Proof.
  intros Hw. pose proof (files_or_new_spec w) as Hnew. specialize (Hnew l Hw).
  rewrite createOrUpdateFiles_step_cases.
  destruct (files_or_new w) as [[l'|e] w1]; cbn [fst snd] in *; [|discriminate].
  pose proof (call_provider_same_shared (Sandbox_connect id) w1) as (Hh2 & Hd2 & Hm2).
  destruct (call_provider (Sandbox_connect id) w1) as [[sandbox|e] w2]; cbn [fst snd] in *;
    [|discriminate].
  pose proof (write_loop_success sandbox l' batch w2) as Hok.
  destruct (for_of batch (write_entry sandbox l') w2) as [[[]|e] w3]; cbn [fst snd] in *;
    [|discriminate].
  intros [= ->]. destruct (Hnew eq_refl) as [Hlen Hobj].
  rewrite Hok by (now rewrite ?Hh2). rewrite <- Hobj. unfold object_at. now rewrite Hh2.
Qed.

(** The handler: an object returned by the step is read back as a fresh
    object and assigned to [files]; on anything else the shared state stays
    as it was before the step.  The handler itself returns undefined. *)
Lemma createOrUpdateFiles_cases (id : string) (batch : list FileEntry) (w : World R) :
  createOrUpdateFiles id batch (Some InngestStep) w =
  match createOrUpdateFiles_step id batch w with
  | (Return (Obj l), inside) =>
      (Return Undefined,
       mkWorld (heap w ++ [object_at inside l])
         (mkAgentState (summary (state_data w)) (Some (length (heap w))))
         (remote inside) (console inside) (messages inside))
  | (Return _, inside) => (Return Undefined, after_step w inside)
  | (Throw e, inside) => (Throw e, after_step w inside)
  end.
Proof.
  unfold createOrUpdateFiles, optional_step_run, bind.
  destruct (createOrUpdateFiles_step id batch w) as [[[| s | l]|e] inside]; reflexivity.
Qed.

Lemma createOrUpdateFiles_frame (id : string) (batch : list FileEntry)
    (step : option StepTools) (w : World R) :
  fst (createOrUpdateFiles id batch step w) = Return Undefined /\
  summary (state_data (snd (createOrUpdateFiles id batch step w))) = summary (state_data w) /\
  messages (snd (createOrUpdateFiles id batch step w)) = messages w.
Proof.
  destruct step as [[]|]; [|now repeat split].
  rewrite createOrUpdateFiles_cases.
  destruct (createOrUpdateFiles_step_frame id batch w) as (Hv & _ & Hm & _).
  destruct (createOrUpdateFiles_step id batch w) as [o inside]. cbn [fst snd] in *.
  destruct Hv as [[l ->] | [e ->]]; cbn; now repeat split.
Qed.

Lemma createOrUpdateFiles_allocated (id : string) (batch : list FileEntry)
    (step : option StepTools) (w : World R) :
  files_allocated w -> files_allocated (snd (createOrUpdateFiles id batch step w)).
Proof.
  intros Hw. destruct step as [[]|]; [|exact Hw].
  rewrite createOrUpdateFiles_cases.
  destruct (createOrUpdateFiles_step_frame id batch w) as (Hv & _).
  destruct (createOrUpdateFiles_step id batch w) as [o inside]. cbn [fst snd] in *.
  destruct Hv as [[l ->] | [e ->]]; [|exact Hw].
  unfold files_allocated. cbn. rewrite length_app. cbn. lia.
Qed.

(** A batch that fails leaves the heap and the shared state as they were
    before the call. *)
Lemma createOrUpdateFiles_failure (id : string) (batch : list FileEntry)
    (step : option StepTools) (w : World R) :
  batch_succeeds id batch w = false ->
  heap (snd (createOrUpdateFiles id batch step w)) = heap w /\
  state_data (snd (createOrUpdateFiles id batch step w)) = state_data w.
Proof.
  intros Hfail. destruct step as [[]|]; [|now split].
  rewrite createOrUpdateFiles_cases. unfold batch_succeeds in Hfail.
  destruct (createOrUpdateFiles_step id batch w) as [[[| s | l]|e] inside];
    cbn [fst snd] in *; try discriminate; now split.
Qed.

(** A batch that succeeds leaves the file-set the shared state had, with
    the batch applied. *)
Lemma createOrUpdateFiles_success (id : string) (batch : list FileEntry) (w : World R) :
  files_allocated w ->
  batch_succeeds id batch w = true ->
  exists l,
    fst (createOrUpdateFiles_step id batch w) = Return (Obj l) /\
    object_at (snd (createOrUpdateFiles_step id batch w)) l
    = apply_batch (files_or_empty w) (own_entries batch) /\
    files_or_empty (snd (createOrUpdateFiles id batch (Some InngestStep) w))
    = apply_batch (files_or_empty w) (own_entries batch).
Proof.
  intros Hw Hok. unfold batch_succeeds in Hok.
  pose proof (createOrUpdateFiles_step_success id batch w) as Hs.
  rewrite createOrUpdateFiles_cases.
  destruct (createOrUpdateFiles_step id batch w) as [[[| s | l]|e] inside]; try discriminate.
  cbn [fst snd] in *. specialize (Hs l Hw eq_refl).
  exists l. split; [reflexivity|]. split; [exact Hs|].
  unfold files_or_empty at 1. cbn [state_data files]. unfold object_at at 1. cbn [heap].
  rewrite lookup_app_r, Nat.sub_diag by lia. exact Hs.
Qed.

(** ** The lifecycle hook *)

Lemma onResponse_cases (result : AgentResult) (network : option NetworkRun) (w : World R) :
  onResponse result network w =
  (Return result,
   match lastAssistantTextMessageContent result, network with
   | Some text, Some _ =>
       if includes text task_summary_tag
       then set_state_data (mkAgentState (Some text) (files (state_data w))) w
       else w
   | _, _ => w
   end).
Proof.
  unfold onResponse, bind, assign_summary.
  destruct (lastAssistantTextMessageContent result) as [[|c text]|];
    destruct network as [[]|]; try reflexivity.
  generalize (includes (String c text) task_summary_tag). now intros [|].
Qed.

(** A turn without a plain-text message of the assistant, such as one made of
    tool calls only, gives the hook nothing to inspect. *)
Lemma lastAssistantTextMessageContent_no_text (result : AgentResult) :
  Forall (fun m => assistant_text m = None) (output result) ->
  lastAssistantTextMessageContent result = None.
Proof.
  unfold lastAssistantTextMessageContent. intros Hall.
  induction Hall as [|m ms Hm _ IH]; [reflexivity|].
  cbn [omap list_omap]. now rewrite Hm.
Qed.

Lemma onResponse_no_text (result : AgentResult) (network : option NetworkRun) (w : World R) :
  Forall (fun m => assistant_text m = None) (output result) ->
  onResponse result network w = (Return result, w).
Proof.
  intros Hall. rewrite onResponse_cases.
  now rewrite lastAssistantTextMessageContent_no_text.
Qed.

(** Run outside a network, the hook has no shared state to write to. *)
Lemma onResponse_without_network (result : AgentResult) (w : World R) :
  onResponse result None w = (Return result, w).
Proof.
  rewrite onResponse_cases. now destruct (lastAssistantTextMessageContent result).
Qed.

(** ** Every operation returns, and keeps the invariants *)

Lemma call_tool_returns (id : string) (step : option StepTools) (c : ToolCall) (w : World R) :
  exists v, fst (call_tool id step c w) = Return v.
Proof.
  destruct c as [command | batch | paths]; cbn [call_tool].
  - apply terminal_returns.
  - exists Undefined. apply createOrUpdateFiles_frame.
  - apply readFiles_returns.
Qed.

Lemma perform_summary (op : Operation) (w : World R) :
  summary (state_data (perform op w)) = summary (state_data w) \/
  exists text, summary (state_data (perform op w)) = Some text /\
               includes text task_summary_tag = true.
Proof.
  destruct op as [id step [command | batch | paths] | result network]; cbn [perform call_tool].
  - left. now destruct (terminal_same_shared id command step w) as (_ & -> & _).
  - left. apply createOrUpdateFiles_frame.
  - left. now destruct (readFiles_same_shared id paths step w) as (_ & -> & _).
  - rewrite onResponse_cases. cbn [snd].
    destruct (lastAssistantTextMessageContent result) as [text|]; [|now left].
    destruct network; [|now left].
    destruct (includes text task_summary_tag) eqn:E; [|now left].
    right. now exists text.
Qed.

Lemma perform_messages (op : Operation) (w : World R) :
  messages (perform op w) = messages w.
Proof.
  destruct op as [id step [command | batch | paths] | result network]; cbn [perform call_tool].
  - apply terminal_same_shared.
  - apply createOrUpdateFiles_frame.
  - apply readFiles_same_shared.
  - rewrite onResponse_cases. cbn [snd].
    destruct (lastAssistantTextMessageContent result) as [text|]; [|reflexivity].
    destruct network; [|reflexivity].
    now destruct (includes text task_summary_tag).
Qed.

Lemma reachable_summary_tagged (w : World R) : reachable w -> summary_tagged w.
Proof.
  induction 1 as [w [Hs _] | w op Hw IH]; intros s Hsum.
  - congruence.
  - destruct (perform_summary op w) as [Heq | (text & Htext & Hin)].
    + apply IH. congruence.
    + congruence.
Qed.

(** ** The network run *)

Lemma tool_calls_run (id : string) (calls : list ToolCall) (w : World R) :
  exists w',
    for_of calls (fun c => call_tool id (Some InngestStep) c ;; ret tt)%js w = (Return tt, w') /\
    (reachable w -> reachable w') /\
    messages w' = messages w.
Proof.
  revert w. induction calls as [|c calls IH]; intros w.
  - exists w. now repeat split.
  - cbn [for_of]. unfold bind at 1 2.
    destruct (call_tool_returns id (Some InngestStep) c w) as [v Hv].
    pose proof (perform_messages (DoTool id (Some InngestStep) c) w) as Hm.
    pose proof (reachable_perform w (DoTool id (Some InngestStep) c)) as Hr.
    cbn [perform] in Hm, Hr.
    destruct (call_tool id (Some InngestStep) c w) as [o w1]. cbn [fst snd] in *. subst o.
    cbn [ret]. destruct (IH w1) as (w' & -> & Hr' & Hm').
    exists w'. repeat split; [tauto | congruence].
Qed.

Lemma agent_run_spec (id : string) (t : Turn) (w : World R) :
  exists w',
    agent_run id t w = (Return (turn_result t), w') /\
    (reachable w -> reachable w') /\
    messages w' = messages w.
Proof.
  unfold agent_run. unfold bind at 1.
  destruct (tool_calls_run id (tool_calls t) w) as (w1 & -> & Hr & Hm).
  pose proof (perform_messages (DoOnResponse (turn_result t) (Some TheNetwork)) w1) as Hm2.
  pose proof (reachable_perform w1 (DoOnResponse (turn_result t) (Some TheNetwork))) as Hr2.
  cbn [perform] in Hm2, Hr2. rewrite onResponse_cases in *. cbn [snd] in *.
  eexists. split; [reflexivity|]. split; [tauto | congruence].
Qed.

Lemma iterate_halted (n : nat) (id : string) (llm : nat -> Turn) (o : Orchestrator)
    (w : World R) :
  orchestrator_state o <> RUNNING ->
  iterate n (orchestrator_step id llm) o w = (Return o, w).
Proof.
  intros Ho. induction n as [|n IH]; [reflexivity|].
  cbn [iterate]. unfold bind, orchestrator_step.
  destruct (orchestrator_state o); [congruence | exact IH | exact IH].
Qed.

(** From a RUNNING state with counter [c], enough transitions end in a
    terminal state: by the limit with the counter at [maxIter], or by the
    router before that. *)
Lemma iterate_running (n c : nat) (id : string) (llm : nat -> Turn)
    (tr : list AgentResult) (w : World R) :
  (c <= maxIter)%nat -> (maxIter - c < n)%nat ->
  exists o w',
    iterate n (orchestrator_step id llm) (mkOrchestrator RUNNING c tr) w = (Return o, w') /\
    (reachable w -> reachable w') /\
    messages w' = messages w /\
    (c <= iteration_counter o <= maxIter)%nat /\
    length (transcript o) = (length tr + (iteration_counter o - c))%nat /\
    ((orchestrator_state o = HALTED_BY_LIMIT /\ iteration_counter o = maxIter) \/
     (orchestrator_state o = HALTED_BY_ROUTER /\ (iteration_counter o < maxIter)%nat /\
      router (state_data w') = None)).
Proof.
  revert c tr w. induction n as [|n IH]; intros c tr w Hc Hn; [lia|].
  cbn [iterate]. unfold bind at 1. unfold orchestrator_step at 1.
  cbn [orchestrator_state iteration_counter transcript].
  destruct (Nat.ltb_spec c maxIter) as [Hlt | Hge].
  - unfold bind at 1. cbn [get_state_data].
    destruct (router (state_data w)) as [[]|] eqn:Hrouter.
    + unfold bind at 1.
      destruct (agent_run_spec id (llm c) w) as (w1 & -> & Hr1 & Hm1).
      cbn [ret].
      destruct (IH (S c) (tr ++ [turn_result (llm c)]) w1) as
        (o & w' & -> & Hr & Hm & Hcnt & Hlen & Hend); [lia | lia |].
      exists o, w'. split; [reflexivity|].
      split; [tauto|]. split; [congruence|]. split; [lia|].
      split; [|exact Hend]. rewrite Hlen, length_app. cbn. lia.
    + cbn [ret]. rewrite iterate_halted by discriminate.
      eexists _, w. split; [reflexivity|]. cbn.
      split; [tauto|]. split; [reflexivity|]. split; [lia|]. split; [lia|].
      right. repeat split; assumption.
  - cbn [ret]. rewrite iterate_halted by discriminate.
    eexists _, w. split; [reflexivity|]. cbn.
    split; [tauto|]. split; [reflexivity|]. split; [lia|]. split; [lia|].
    left. split; [reflexivity | lia].
Qed.

Lemma network_run_spec (id : string) (llm : nat -> Turn) (w : World R) :
  exists o w',
    network_run id llm w = (Return o, w') /\
    (reachable w -> reachable w') /\
    messages w' = messages w /\
    length (transcript o) = iteration_counter o /\
    ((orchestrator_state o = HALTED_BY_LIMIT /\ iteration_counter o = maxIter) \/
     (orchestrator_state o = HALTED_BY_ROUTER /\ (iteration_counter o < maxIter)%nat /\
      router (state_data w') = None)).
Proof.
  unfold network_run.
  destruct (iterate_running (S maxIter) 0 id llm [] w) as
    (o & w' & Hrun & Hr & Hm & Hcnt & Hlen & Hend); [lia | lia |].
  exists o, w'. repeat split; try assumption. rewrite Hlen. cbn. lia.
Qed.

(** ** The claims *)

(** C1. For every turn result, the completion detector [onResponse], run by
    the network on its shared state, sets the summary exactly when the last
    plain-text message of the assistant exists and contains the tag
    [<task_summary>]; the summary stored is then that whole message, tag
    included, and nothing else in the world changes.  In every case the hook
    returns the result it was given. *)
Theorem onResponse_sets_summary_iff_tagged (result : AgentResult) (w : World R) :
  (forall network, fst (onResponse result network w) = Return result) /\
  (forall text,
     lastAssistantTextMessageContent result = Some text ->
     contains text task_summary_tag ->
     snd (onResponse result (Some TheNetwork) w)
     = set_state_data (mkAgentState (Some text) (files (state_data w))) w) /\
  (~ (exists text, lastAssistantTextMessageContent result = Some text /\
                   contains text task_summary_tag) ->
   snd (onResponse result (Some TheNetwork) w) = w).
Proof.
  split; [intros network; now rewrite onResponse_cases|].
  rewrite onResponse_cases. cbn [snd]. split.
  - intros text -> Hc. apply includes_contains in Hc. now rewrite Hc.
  - intros Hno. destruct (lastAssistantTextMessageContent result) as [text|]; [|reflexivity].
    destruct (includes text task_summary_tag) eqn:E; [|reflexivity].
    exfalso. apply Hno. exists text. split; [reflexivity | now apply includes_contains].
Qed.

(** C4. For every shared state, the router halts (returns no agent) exactly
    when the summary is present and non-empty; otherwise it returns the one
    configured agent, [codeAgent]. *)
Theorem router_halts_iff_summary (d : AgentState) :
  (router d = None <-> exists s, summary d = Some s /\ s <> "") /\
  (~ (exists s, summary d = Some s /\ s <> "") -> router d = Some codeAgent).
Proof.
  unfold router. rewrite <- truthy_is_Some.
  destruct (truthy (summary d)); split; try split; congruence.
Qed.

Lemma on_output_captured (chunks : list OutputChunk) (out err : string) :
  fold_left on_output chunks (mkBuffers out err)
  = mkBuffers (out +:+ captured_stdout chunks) (err +:+ captured_stderr chunks).
Proof.
  revert out err. induction chunks as [|[data|data] rest IH]; intros out err; cbn.
  - now rewrite !app_empty_r.
  - rewrite IH. cbn [on_output buffers_stdout buffers_stderr]. now rewrite app_assoc.
  - rewrite IH. cbn [on_output buffers_stdout buffers_stderr]. now rewrite app_assoc.
Qed.

(** C7. For every command, the terminal tool never throws.  When the command
    succeeds it returns the standard output of the result; when connecting
    or running fails it returns a string that contains the error and the
    text received so far on standard output and on standard error. *)
Theorem terminal_never_throws (id command : string) (w : World R) :
  (forall step, exists v, fst (terminal id command step w) = Return v) /\
  match Sandbox_connect id (remote w) with
  | (Return sandbox, r1) =>
      match commands_run sandbox command r1 with
      | (_, Return result, _) =>
          fst (terminal id command (Some InngestStep) w) = Return (Str (stdout result))
      | (chunks, Throw e, _) =>
          exists report,
            fst (terminal id command (Some InngestStep) w) = Return (Str report) /\
            contains report e /\
            contains report (captured_stdout chunks) /\
            contains report (captured_stderr chunks)
      end
  | (Throw e, _) =>
      exists report,
        fst (terminal id command (Some InngestStep) w) = Return (Str report) /\
        contains report e
  end.
Proof.
  split; [intros step; apply terminal_returns|].
  unfold terminal, optional_step_run, step_run. rewrite terminal_step_cases.
  destruct (Sandbox_connect id (remote w)) as [[sandbox|e] r1].
  - destruct (commands_run sandbox command r1) as [[chunks [result|e]] r2]; [reflexivity|].
    cbn zeta. eexists. split; [reflexivity|].
    rewrite on_output_captured. unfold command_failed. cbn [buffers_stdout buffers_stderr].
    change ("" +:+ captured_stdout chunks) with (captured_stdout chunks).
    change ("" +:+ captured_stderr chunks) with (captured_stderr chunks).
    split; [|split].
    + now exists "Command failed: ", (" " +:+ newline +:+ "stdout: " +:+ captured_stdout chunks
          +:+ newline +:+ "stderror: " +:+ captured_stderr chunks).
    + exists ("Command failed: " +:+ e +:+ " " +:+ newline +:+ "stdout: "),
             (newline +:+ "stderror: " +:+ captured_stderr chunks).
      now rewrite !app_assoc.
    + exists ("Command failed: " +:+ e +:+ " " +:+ newline +:+ "stdout: "
              +:+ captured_stdout chunks +:+ newline +:+ "stderror: "), "".
      now rewrite !app_assoc, app_empty_r.
  - cbn zeta. eexists. split; [reflexivity|]. unfold command_failed.
    now exists "Command failed: ", (" " +:+ newline +:+ "stdout: " +:+ "" +:+ newline +:+ "stderror: " +:+ "").
Qed.

(** C9. The readFiles tool and the terminal tool leave the shared state as it
    was: the heap, and with it the file-set, and both fields of the state.
    The lifecycle hook leaves the heap and the [files] field alone, and so
    does storing the final message. *)
Theorem only_createOrUpdateFiles_writes_files (id : string) (step : option StepTools)
    (w : World R) :
  (forall paths,
     heap (snd (readFiles id paths step w)) = heap w /\
     state_data (snd (readFiles id paths step w)) = state_data w /\
     files_or_empty (snd (readFiles id paths step w)) = files_or_empty w) /\
  (forall command,
     heap (snd (terminal id command step w)) = heap w /\
     state_data (snd (terminal id command step w)) = state_data w /\
     files_or_empty (snd (terminal id command step w)) = files_or_empty w) /\
  (forall result network,
     heap (snd (onResponse result network w)) = heap w /\
     files (state_data (snd (onResponse result network w))) = files (state_data w) /\
     files_or_empty (snd (onResponse result network w)) = files_or_empty w) /\
  (forall data,
     heap (snd (prisma_message_create data w)) = heap w /\
     state_data (snd (prisma_message_create data w)) = state_data w).
Proof.
  assert (Hsame : forall w' : World R, same_shared w w' ->
            heap w' = heap w /\ state_data w' = state_data w /\
            files_or_empty w' = files_or_empty w).
  { intros w' (Hh & Hd & _). repeat split; try assumption.
    unfold files_or_empty, object_at. now rewrite Hh, Hd. }
  split; [|split; [|split]].
  - intros paths. apply Hsame, readFiles_same_shared.
  - intros command. apply Hsame, terminal_same_shared.
  - intros result network. rewrite onResponse_cases. cbn [snd].
    destruct (lastAssistantTextMessageContent result) as [text|]; [|now repeat split].
    destruct network; [|now repeat split].
    destruct (includes text task_summary_tag); now repeat split.
  - intros data. now split.
Qed.

Lemma tag_nonempty (s : string) : contains s task_summary_tag -> s <> "".
Proof. intros Hc. now apply (contains_nonempty s task_summary_tag). Qed.

Lemma tagged_summary_tests (w : World R) :
  summary_tagged w ->
  (forall s, summary (state_data w) = Some s ->
     contains s task_summary_tag /\ s <> "") /\
  (router (state_data w) = None <-> is_Some (summary (state_data w))) /\
  (negb (truthy (summary (state_data w))) = true <-> summary (state_data w) = None).
Proof.
  intros Htag.
  assert (Hs : forall s, summary (state_data w) = Some s ->
                 contains s task_summary_tag /\ s <> "").
  { intros s Hsum. apply Htag, includes_contains in Hsum.
    split; [exact Hsum | now apply tag_nonempty]. }
  split; [exact Hs|]. unfold router.
  destruct (summary (state_data w)) as [s|] eqn:Hsum.
  - destruct (Hs s eq_refl) as [_ Hne]. apply truthy_Some in Hne. rewrite Hne. cbn.
    split; split; try congruence; eauto.
  - cbn. split; split; try congruence. intros [s Hs']. discriminate.
Qed.

(** C10. In every world a run can reach, a summary that is set contains the
    tag [<task_summary>] and so is not the empty string; hence the router's
    test [if (summary)] and the caller's test [!summary] agree with the
    summary being present, respectively absent. *)
Theorem summary_present_iff_truthy (w : World R) :
  reachable w ->
  (forall s, summary (state_data w) = Some s ->
     contains s task_summary_tag /\ s <> "") /\
  (router (state_data w) = None <-> is_Some (summary (state_data w))) /\
  (negb (truthy (summary (state_data w))) = true <-> summary (state_data w) = None).
Proof. intros Hw. now apply tagged_summary_tests, reachable_summary_tagged. Qed.

Lemma Object_keys_empty (m : gmap string string) :
  (length (Object_keys m) =? 0)%nat = true <-> m = ∅.
Proof.
  unfold Object_keys. rewrite Nat.eqb_eq, length_fmap, length_zero_iff_nil.
  apply map_to_list_empty_iff.
Qed.

Lemma isError_reachable (w : World R) :
  reachable w ->
  (isError w = true <-> summary (state_data w) = None \/ files_or_empty w = ∅).
Proof.
  intros Hw.
  destruct (tagged_summary_tests w (reachable_summary_tagged w Hw)) as (_ & _ & Hneg).
  unfold isError. now rewrite orb_true_iff, Hneg, Object_keys_empty.
Qed.

(** A path is in the file-set exactly when the object that [files] refers
    to has it. *)
Lemma files_or_empty_lookup (w : World R) (p c : string) :
  files_or_empty w !! p = Some c
  <-> exists l m, files (state_data w) = Some l /\ heap w !! l = Some m /\ m !! p = Some c.
Proof.
  unfold files_or_empty, object_at. split.
  - destruct (files (state_data w)) as [l|]; [|now rewrite lookup_empty].
    destruct (heap w !! l) as [m|] eqn:Hm; cbn; [|now rewrite lookup_empty].
    intros Hp. now exists l, m.
  - intros (l & m & -> & -> & Hp). exact Hp.
Qed.

Lemma files_or_empty_no_path (w : World R) :
  files_or_empty w = ∅
  <-> ~ (exists l m p c,
           files (state_data w) = Some l /\ heap w !! l = Some m /\ m !! p = Some c).
Proof.
  split.
  - intros Hempty (l & m & p & c & Hpath).
    assert (Hp : files_or_empty w !! p = Some c) by (apply files_or_empty_lookup; eauto).
    rewrite Hempty, lookup_empty in Hp. discriminate.
  - intros Hno. apply map_empty. intros p.
    destruct (files_or_empty w !! p) as [c|] eqn:Hp; [|reflexivity].
    exfalso. apply Hno. apply files_or_empty_lookup in Hp as (l & m & Hp).
    now exists l, m, p, c.
Qed.

(** C5. A run of the network from an initial shared state always ends, in one
    of the two terminal states; whichever it is, the final shared state is
    classified as an error exactly when the summary is absent or the files
    map is empty, that is, when [files] refers to no object that holds a
    path. *)
Theorem isError_iff_no_summary_or_no_files (id : string) (llm : nat -> Turn) (w0 : World R) :
  initial w0 ->
  exists o w,
    network_run id llm w0 = (Return o, w) /\
    (orchestrator_state o = HALTED_BY_ROUTER \/ orchestrator_state o = HALTED_BY_LIMIT) /\
    (isError w = true
     <-> summary (state_data w) = None \/
         ~ (exists l m p c,
              files (state_data w) = Some l /\ heap w !! l = Some m /\ m !! p = Some c)).
Proof.
  intros Hinit.
  destruct (network_run_spec id llm w0) as (o & w & Hrun & Hr & _ & _ & Hend).
  exists o, w. split; [exact Hrun|]. split; [tauto|].
  rewrite <- files_or_empty_no_path.
  apply isError_reachable, Hr. now constructor.
Qed.

(** C8. A run of the network always ends, after at most 15 agent turns (one
    transcript entry each).  It ends in HALTED_BY_LIMIT exactly when all 15
    turns were taken, and in HALTED_BY_ROUTER, a different state, when the
    router halted the run before that. *)
Theorem network_run_within_maxIter (id : string) (llm : nat -> Turn) (w : World R) :
  exists o w',
    network_run id llm w = (Return o, w') /\
    maxIter = 15%nat /\
    (iteration_counter o <= 15)%nat /\
    length (transcript o) = iteration_counter o /\
    (orchestrator_state o = HALTED_BY_LIMIT <-> iteration_counter o = 15%nat) /\
    (orchestrator_state o = HALTED_BY_ROUTER <->
       (iteration_counter o < 15)%nat /\ router (state_data w') = None) /\
    (orchestrator_state o = HALTED_BY_ROUTER \/ orchestrator_state o = HALTED_BY_LIMIT) /\
    HALTED_BY_LIMIT <> HALTED_BY_ROUTER.
Proof.
  destruct (network_run_spec id llm w) as (o & w' & Hrun & _ & _ & Hlen & Hend).
  exists o, w'. change maxIter with 15%nat in Hend.
  split; [exact Hrun|]. split; [reflexivity|].
  destruct Hend as [[Hst Hc] | (Hst & Hc & Hrouter)]; rewrite Hst;
    repeat split; try congruence; try lia; try tauto; intros; try discriminate; try lia.
Qed.

(** ** The final message *)

Lemma save_result_cases (event : Event) (is_error : bool) (url : string) (w : World R) :
  save_result event is_error url w =
  let m :=
    if is_error then
      mkMessageData (data_projectId event) (Some "Something went wrong. Please try again.")
        "ASSISTANT" "ERROR" None
    else
      mkMessageData (data_projectId event) (summary (state_data w))
        "ASSISTANT" "RESULT" (Some (mkFragment url "Fragment" (files_value w)))
  in (Return m, set_messages (messages w ++ [m]) w).
Proof. destruct is_error; reflexivity. Qed.

Lemma isError_same_state (w w' : World R) :
  heap w' = heap w -> state_data w' = state_data w -> isError w' = isError w.
Proof.
  intros Hh Hd. unfold isError, files_or_empty, object_at. now rewrite Hh, Hd.
Qed.

Lemma files_value_same_state (w w' : World R) :
  heap w' = heap w -> state_data w' = state_data w -> files_value w' = files_value w.
Proof.
  intros Hh Hd. unfold files_value, object_at. rewrite Hd.
  destruct (files (state_data w)); cbn; now rewrite ?Hh.
Qed.

(** [codeAgentFunction], by cases on what the provider does at its two
    unguarded steps. *)
Lemma codeAgentFunction_cases (llm : string -> nat -> Turn) (event : Event) (w : World R) :
  codeAgentFunction llm event w =
  match Sandbox_create "lovableclone-test16" (remote w) with
  | (Throw e, r0) => (Throw e, set_remote r0 w)
  | (Return created, r0) =>
      match network_run (sandboxId created) (llm (data_value event)) (set_remote r0 w) with
      | (Throw e, w2) => (Throw e, w2)
      | (Return _, w2) =>
          match Sandbox_connect (sandboxId created) (remote w2) with
          | (Throw e, r3) => (Throw e, set_remote r3 w2)
          | (Return sandbox, r3) =>
              let url := "https://" +:+ getHost sandbox 3000 r3 in
              let saved := snd (save_result event (isError w2) url (set_remote r3 w2)) in
              (Return (mkRunOutput url "Fragment" (files_value saved)
                         (summary (state_data saved))),
               saved)
          end
      end
  end.
Proof.
  unfold codeAgentFunction. unfold bind at 1. unfold step_run at 1, call_provider at 1.
  destruct (Sandbox_create "lovableclone-test16" (remote w)) as [[created|e] r0];
    [|reflexivity].
  change (after_step w (set_remote r0 w)) with (set_remote r0 w).
  unfold bind at 1.
  destruct (network_run (sandboxId created) (llm (data_value event)) (set_remote r0 w))
    as [[o|e] w2]; [|reflexivity].
  unfold bind at 1. cbn [get_world]. unfold bind at 1.
  unfold step_run at 1. unfold bind at 1. unfold getSandbox, call_provider.
  destruct (Sandbox_connect (sandboxId created) (remote w2)) as [[sandbox|e] r3];
    [|reflexivity].
  unfold bind at 1. cbn [get_world ret remote set_remote].
  change (after_step w2 (set_remote r3 w2)) with (set_remote r3 w2).
  unfold bind at 1.
  destruct (save_result event (isError w2)
              ("https://" +:+ getHost sandbox 3000 r3) (set_remote r3 w2)) as [[m|e] w4] eqn:Hsave.
  - reflexivity.
  - rewrite save_result_cases in Hsave. discriminate.
Qed.

(** C6. A run of [codeAgentFunction] that completes has stored exactly one
    message, with role ASSISTANT.  If the run is classified as an error, the
    message has the fixed content, type ERROR and no fragment; otherwise its
    content is the summary, its type is RESULT, and its fragment carries the
    sandbox URL, the title [Fragment] and the file-set. *)
Theorem one_message_saved (llm : string -> nat -> Turn) (event : Event)
    (w : World R) (out : RunOutput) (w' : World R) :
  codeAgentFunction llm event w = (Return out, w') ->
  exists m,
    messages w' = messages w ++ [m] /\
    projectId m = data_projectId event /\
    role m = "ASSISTANT" /\
    if isError w' then
      content m = Some "Something went wrong. Please try again." /\
      type m = "ERROR" /\
      fragment m = None
    else
      content m = summary (state_data w') /\
      type m = "RESULT" /\
      fragment m = Some (mkFragment (out_sandboxUrl out) "Fragment" (files_value w')).
Proof.
  rewrite codeAgentFunction_cases.
  destruct (Sandbox_create "lovableclone-test16" (remote w)) as [[created|e] r0];
    [|discriminate].
  destruct (network_run_spec (sandboxId created) (llm (data_value event)) (set_remote r0 w))
    as (o & w2 & -> & _ & Hm2 & _).
  destruct (Sandbox_connect (sandboxId created) (remote w2)) as [[sandbox|e] r3];
    [|discriminate].
  cbn zeta. rewrite save_result_cases. cbn zeta. cbn [snd].
  intros [= <- <-]. cbn [out_sandboxUrl messages set_messages set_remote state_data].
  eexists. split; [rewrite Hm2; reflexivity|].
  match goal with |- context [isError (set_messages ?ms (set_remote r3 w2))] =>
    assert (Herr : isError (set_messages ms (set_remote r3 w2)) = isError w2)
      by (now apply isError_same_state);
    assert (Hfv : files_value (set_messages ms (set_remote r3 w2))
                  = files_value (set_remote r3 w2))
      by (now apply files_value_same_state)
  end.
  rewrite Herr, Hfv.
  destruct (isError w2); cbn; repeat split.
Qed.

(** ** Batches, failed and successful *)


Lemma write_batches_fold (id : string) (batches : list (list FileEntry)) (w : World R) :
  files_allocated w ->
  batches_succeed id batches w = true ->
  fst (write_batches id batches w) = Return tt /\
  files_or_empty (snd (write_batches id batches w))
  = fold_left apply_batch (map own_entries batches) (files_or_empty w).
Proof.
  revert w. induction batches as [|batch rest IH]; intros w Hw Hok; [now split|].
  cbn [batches_succeed] in Hok. apply andb_true_iff in Hok as [Hb Hrest].
  destruct (createOrUpdateFiles_success id batch w Hw Hb) as (l & _ & _ & Hfiles).
  pose proof (createOrUpdateFiles_allocated id batch (Some InngestStep) w Hw) as Hw1.
  destruct (createOrUpdateFiles_frame id batch (Some InngestStep) w) as (Hret & _).
  unfold write_batches in *. cbn [for_of fold_left map]. unfold bind at 1 2 4 5.
  destruct (createOrUpdateFiles id batch (Some InngestStep) w) as [o w1].
  cbn [fst snd] in *. subst o. cbn [ret].
  rewrite <- Hfiles. now apply IH.
Qed.



(** Entries with the path [__proto__] apart, that is what every sequence of
    successful batches leaves. *)
Lemma files_after_any_batches (id : string) (batches : list (list FileEntry)) (w : World R) :
  initial w ->
  batches_succeed id batches w = true ->
  files_or_empty (snd (write_batches id batches w)) = apply_batches (map own_entries batches).
Proof.
  intros [_ Hfiles] Hok.
  assert (Hw : files_allocated w /\ files_or_empty w = ∅).
  { unfold files_allocated, files_or_empty, object_at.
    destruct (files (state_data w)) as [l|]; [|now split].
    rewrite Hfiles. split; [|reflexivity]. now apply lookup_lt_Some in Hfiles. }
  destruct Hw as [Hw Hempty].
  destruct (write_batches_fold id batches w Hw Hok) as [_ Hfold].
  now rewrite Hfold, Hempty.
Qed.

(** A later write to a path replaces the earlier one. *)
Lemma apply_batch_last_wins (m : gmap string string) (batch : list FileEntry)
    (p c : string) :
  apply_batch m (batch ++ [mkFileEntry p c]) !! p = Some c.
Proof.
  unfold apply_batch. rewrite fold_left_app. cbn. apply lookup_insert_eq.
Qed.

End Properties.

(** ** The workflow on the in-memory provider *)

Import Demo.

Lemma onResponse_hello :
  snd (onResponse done_result (Some TheNetwork) world0)
  = set_state_data (mkAgentState (Some done_text) None) world0.
Proof. reflexivity. Qed.

(** A turn that ends on a tool call leaves the summary unset. *)
Lemma onResponse_tool_call_only :
  snd (onResponse (mkAgentResult "code-agent"
                     [ToolCallMessage role_assistant ["terminal"];
                      ToolResultMessage role_tool_result "terminal" "<task_summary>"])
         (Some TheNetwork) world0)
  = world0.
Proof. reflexivity. Qed.



(** The failing batch of the example: the sandbox keeps the file written
    before the throw, the shared state does not record it. *)
Lemma failing_batch_sandbox_and_state :
  remote (snd (createOrUpdateFiles "sbx-1" failing_batch (Some InngestStep) hello_world))
    !! "app/page.tsx" = Some "export default 1" /\
  files_or_empty (snd (createOrUpdateFiles "sbx-1" failing_batch (Some InngestStep) hello_world))
  = {[ "index.html" := "<h1>Hello</h1>" ]}.
Proof. split; vm_compute; reflexivity. Qed.



(** The two batches of the example leave the later content at each path. *)
Lemma hello_then_update :
  files_or_empty (snd (write_batches "sbx-1" [hello_batch; update_batch] world0))
  = {[ "index.html" := "<h1>Hi</h1>"; "app/page.tsx" := "v2" ]}.
Proof. vm_compute. reflexivity. Qed.

Lemma summary_present_iff_truthy_witness :
  reachable done_world /\
  (forall s, summary (state_data done_world) = Some s ->
     contains s task_summary_tag /\ s <> "") /\
  (router (state_data done_world) = None <-> is_Some (summary (state_data done_world))) /\
  (negb (truthy (summary (state_data done_world))) = true
   <-> summary (state_data done_world) = None).
Proof.
  assert (Hr : reachable done_world).
  { apply reachable_perform, reachable_initial. split; [reflexivity | exact I]. }
  split; [exact Hr|]. apply (summary_present_iff_truthy done_world Hr).
Defined.

Lemma isError_iff_no_summary_or_no_files_witness :
  initial world0 /\
  isError (snd (network_run "sbx-1" (hello_llm "prompt") world0)) = false /\
  isError (snd (network_run "sbx-1" (busy_llm "prompt") world0)) = true /\
  exists o w,
    network_run "sbx-1" (hello_llm "prompt") world0 = (Return o, w) /\
    (orchestrator_state o = HALTED_BY_ROUTER \/ orchestrator_state o = HALTED_BY_LIMIT) /\
    (isError w = true
     <-> summary (state_data w) = None \/
         ~ (exists l m p c,
              files (state_data w) = Some l /\ heap w !! l = Some m /\ m !! p = Some c)).
Proof.
  assert (Hinit : initial world0) by (split; [reflexivity | exact I]).
  split; [exact Hinit|]. split; [vm_compute; reflexivity|]. split; [vm_compute; reflexivity|].
  apply (isError_iff_no_summary_or_no_files "sbx-1" (hello_llm "prompt") world0 Hinit).
Defined.

Lemma one_message_saved_witness :
  codeAgentFunction hello_llm hello_event world0 = (Return hello_output, hello_final) /\
  exists m,
    messages hello_final = messages world0 ++ [m] /\
    projectId m = "project-1" /\
    role m = "ASSISTANT" /\
    if isError hello_final then
      content m = Some "Something went wrong. Please try again." /\
      type m = "ERROR" /\
      fragment m = None
    else
      content m = summary (state_data hello_final) /\
      type m = "RESULT" /\
      fragment m = Some (mkFragment "https://3000-sbx-1.e2b.app" "Fragment"
                           (files_value hello_final)).
Proof.
  assert (Hrun : codeAgentFunction hello_llm hello_event world0
                 = (Return hello_output, hello_final)) by (vm_compute; reflexivity).
  split; [exact Hrun|].
  apply (one_message_saved hello_llm hello_event world0 hello_output hello_final Hrun).
Defined.

(** The run of [hello_llm] is stored as a RESULT carrying the summary. *)
Lemma hello_run_saved :
  messages hello_final
  = [mkMessageData "project-1" (Some done_text) "ASSISTANT" "RESULT"
       (Some (mkFragment "https://3000-sbx-1.e2b.app" "Fragment"
                (Some {[ "index.html" := "<h1>Hello</h1>" ]})))].
Proof. vm_compute. reflexivity. Qed.

(** Fifteen turns without the tag: the limit ends the run, and the fixed
    error message is stored. *)
Lemma busy_run_saved :
  (exists w, network_run "sbx-1" (busy_llm "prompt") world0
             = (Return (mkOrchestrator HALTED_BY_LIMIT 15
                          (repeat (turn_result (busy_llm "prompt" 0)) 15)), w)) /\
  messages (snd (codeAgentFunction busy_llm hello_event world0))
  = [mkMessageData "project-1" (Some "Something went wrong. Please try again.")
       "ASSISTANT" "ERROR" None].
Proof. split; [eexists|]; vm_compute; reflexivity. Qed.

(** * Further properties of the workflow *)

(** ** File-sets *)

Lemma apply_batch_cons (m : gmap string string) (file : FileEntry) (rest : list FileEntry) :
  apply_batch m (file :: rest) = apply_batch (<[path file := file_content file]> m) rest.
Proof. reflexivity. Qed.

(** What a batch leaves at a path: the content of its last entry for that
    path, or what was there before if the batch does not name the path. *)
Lemma apply_batch_lookup (m : gmap string string) (batch : list FileEntry) (p : string) :
  apply_batch m batch !! p
  = match last_write p batch with
    | Some c => Some c
    | None => m !! p
    end.
Proof.
  revert m. induction batch as [|file rest IH]; intros m; [reflexivity|].
  rewrite apply_batch_cons, IH. cbn [last_write].
  destruct (last_write p rest) as [c|]; [reflexivity|].
  destruct (String.eqb_spec (path file) p) as [<- | Hne].
  - apply lookup_insert_eq.
  - now apply lookup_insert_ne.
Qed.

Lemma last_write_not_named (p : string) (batch : list FileEntry) :
  p ∉ path <$> batch -> last_write p batch = None.
Proof.
  induction batch as [|file rest IH]; [reflexivity|].
  rewrite fmap_cons, not_elem_of_cons. intros [Hne Hrest].
  cbn [last_write]. rewrite (IH Hrest).
  destruct (String.eqb_spec (path file) p); congruence.
Qed.

Lemma apply_batch_twice (m : gmap string string) (batch : list FileEntry) :
  apply_batch (apply_batch m batch) batch = apply_batch m batch.
Proof.
  apply map_eq. intros p. rewrite (apply_batch_lookup (apply_batch m batch)).
  rewrite (apply_batch_lookup m). now destruct (last_write p batch).
Qed.

Section MoreProperties.

Context {R : Type} `{SandboxProvider R}.

Lemma last_write_own_not_named (p : string) (batch : list FileEntry) :
  p ∉ path <$> batch -> last_write p (own_entries batch) = None.
Proof.
  unfold own_entries. induction batch as [|file rest IH]; [reflexivity|].
  rewrite fmap_cons, not_elem_of_cons. intros [Hne Hrest].
  cbn [List.filter]. destruct (creates_property file); [|now apply IH].
  cbn [last_write]. rewrite (IH Hrest).
  destruct (String.eqb_spec (path file) p); congruence.
Qed.

(** ** The createOrUpdateFiles tool, batch by batch *)

Lemma files_or_empty_same (w w' : World R) :
  heap w' = heap w ->
  files (state_data w') = files (state_data w) ->
  files_or_empty w' = files_or_empty w.
Proof. intros Hh Hf. unfold files_or_empty, object_at. now rewrite Hh, Hf. Qed.

(** A call leaves the file-set as it was, or with the whole batch applied:
    never with a part of it. *)
Lemma createOrUpdateFiles_atomic (id : string) (batch : list FileEntry)
    (step : option StepTools) (w : World R) :
  files_allocated w ->
  files_or_empty (snd (createOrUpdateFiles id batch step w)) = files_or_empty w \/
  files_or_empty (snd (createOrUpdateFiles id batch step w))
  = apply_batch (files_or_empty w) (own_entries batch).
Proof.
  intros Hw. destruct step as [[]|]; [|now left].
  destruct (batch_succeeds id batch w) eqn:Hok.
  - right. now destruct (createOrUpdateFiles_success id batch w Hw Hok) as (l & _ & _ & ->).
  - left. destruct (createOrUpdateFiles_failure id batch (Some InngestStep) w Hok) as [Hh Hd].
    apply files_or_empty_same; [exact Hh | now rewrite Hd].
Qed.

Lemma createOrUpdateFiles_console (id : string) (batch : list FileEntry)
    (step : option StepTools) (w : World R) :
  console (snd (createOrUpdateFiles id batch step w)) = console w.
Proof.
  destruct step as [[]|]; [|reflexivity].
  rewrite createOrUpdateFiles_cases.
  destruct (createOrUpdateFiles_step_frame id batch w) as (Hv & _ & _ & Hc).
  destruct (createOrUpdateFiles_step id batch w) as [o inside]. cbn [fst snd] in *.
  destruct Hv as [[l ->] | [e ->]]; exact Hc.
Qed.

(** X3. Whatever the batch and whatever the sandbox does, the handler of
    createOrUpdateFiles completes without throwing and yields undefined; it
    leaves the summary and the stored messages alone and, unlike the
    terminal tool, writes nothing to the console when the batch fails. *)
Theorem createOrUpdateFiles_yields_undefined (id : string) (batch : list FileEntry)
    (step : option StepTools) (w : World R) :
  fst (createOrUpdateFiles id batch step w) = Return Undefined /\
  summary (state_data (snd (createOrUpdateFiles id batch step w))) = summary (state_data w) /\
  messages (snd (createOrUpdateFiles id batch step w)) = messages w /\
  console (snd (createOrUpdateFiles id batch step w)) = console w.
Proof.
  destruct (createOrUpdateFiles_frame id batch step w) as (Hret & Hsum & Hm).
  repeat split; try assumption. apply createOrUpdateFiles_console.
Qed.

(** X4. A call of createOrUpdateFiles changes the shared file-set at no path
    other than those the batch names, whether the batch succeeds or fails. *)
Theorem createOrUpdateFiles_other_paths (id : string) (batch : list FileEntry)
    (step : option StepTools) (w : World R) (p : string) :
  files_allocated w ->
  p ∉ path <$> batch ->
  files_or_empty (snd (createOrUpdateFiles id batch step w)) !! p = files_or_empty w !! p.
Proof.
  intros Hw Hp.
  destruct (createOrUpdateFiles_atomic id batch step w Hw) as [-> | ->]; [reflexivity|].
  now rewrite apply_batch_lookup, last_write_own_not_named.
Qed.

(** X7. Calling createOrUpdateFiles again with a batch that has just
    succeeded, and succeeds again, leaves the shared file-set as the first
    call left it. *)
Theorem createOrUpdateFiles_retry (id : string) (batch : list FileEntry) (w : World R) :
  files_allocated w ->
  batch_succeeds id batch w = true ->
  batch_succeeds id batch (snd (createOrUpdateFiles id batch (Some InngestStep) w)) = true ->
  files_or_empty
    (snd (createOrUpdateFiles id batch (Some InngestStep)
            (snd (createOrUpdateFiles id batch (Some InngestStep) w))))
  = files_or_empty (snd (createOrUpdateFiles id batch (Some InngestStep) w)).
Proof.
  intros Hw Hok1 Hok2.
  pose proof (createOrUpdateFiles_allocated id batch (Some InngestStep) w Hw) as Hw1.
  destruct (createOrUpdateFiles_success id batch _ Hw1 Hok2) as (l2 & _ & _ & ->).
  destruct (createOrUpdateFiles_success id batch w Hw Hok1) as (l1 & _ & _ & ->).
  apply apply_batch_twice.
Qed.

(** ** What no operation undoes *)

Lemma onResponse_files (result : AgentResult) (network : option NetworkRun) (w : World R) :
  heap (snd (onResponse result network w)) = heap w /\
  files (state_data (snd (onResponse result network w))) = files (state_data w).
Proof.
  rewrite onResponse_cases. cbn [snd].
  destruct (lastAssistantTextMessageContent result) as [text|]; [|now split].
  destruct network; [|now split].
  now destruct (includes text task_summary_tag).
Qed.

Lemma perform_files_allocated (op : Operation) (w : World R) :
  files_allocated w -> files_allocated (perform op w).
Proof.
  intros Hw.
  destruct op as [id step [command | batch | paths] | result network]; cbn [perform call_tool].
  - destruct (terminal_same_shared id command step w) as (Hh & Hd & _).
    unfold files_allocated. now rewrite Hh, Hd.
  - now apply createOrUpdateFiles_allocated.
  - destruct (readFiles_same_shared id paths step w) as (Hh & Hd & _).
    unfold files_allocated. now rewrite Hh, Hd.
  - destruct (onResponse_files result network w) as (Hh & Hf).
    unfold files_allocated. now rewrite Hh, Hf.
Qed.

Lemma reachable_files_allocated (w : World R) : reachable w -> files_allocated w.
Proof.
  induction 1 as [w [_ Hf] | w op _ IH]; [|now apply perform_files_allocated].
  unfold files_allocated. destruct (files (state_data w)) as [l|]; [|exact I].
  now apply lookup_lt_Some in Hf.
Qed.

Lemma perform_keeps_paths (op : Operation) (w : World R) :
  files_allocated w ->
  dom (files_or_empty w) ⊆ dom (files_or_empty (perform op w)).
Proof.
  intros Hw.
  destruct op as [id step [command | batch | paths] | result network]; cbn [perform call_tool].
  - destruct (terminal_same_shared id command step w) as (Hh & Hd & _).
    now rewrite (files_or_empty_same w _ Hh (f_equal files Hd)).
  - destruct (createOrUpdateFiles_atomic id batch step w Hw) as [-> | ->]; [reflexivity|].
    intros p. rewrite !elem_of_dom, apply_batch_lookup.
    destruct (last_write p (own_entries batch)); [eauto | trivial].
  - destruct (readFiles_same_shared id paths step w) as (Hh & Hd & _).
    now rewrite (files_or_empty_same w _ Hh (f_equal files Hd)).
  - destruct (onResponse_files result network w) as (Hh & Hf).
    now rewrite (files_or_empty_same w _ Hh Hf).
Qed.

(** X5. No sequence of tool calls and hook calls removes a path from the
    shared file-set: every path present in a world a run can reach is still
    present after any further operations. *)
Theorem files_never_removed (ops : list Operation) (w : World R) :
  reachable w ->
  dom (files_or_empty w) ⊆ dom (files_or_empty (perform_all ops w)).
Proof.
  intros Hw. apply reachable_files_allocated in Hw.
  revert w Hw. induction ops as [|op ops IH]; intros w Hw; [reflexivity|].
  cbn [perform_all fold_left]. etransitivity; [apply (perform_keeps_paths op w Hw)|].
  apply IH. now apply perform_files_allocated.
Qed.

Lemma last_write_own_proto (batch : list FileEntry) :
  last_write "__proto__" (own_entries batch) = None.
Proof.
  unfold own_entries. induction batch as [|file rest IH]; [reflexivity|].
  cbn [List.filter]. unfold creates_property at 1.
  destruct (String.eqb_spec (path file) "__proto__") as [Heq | Hne]; cbn [negb]; [exact IH|].
  cbn [last_write]. rewrite IH.
  destruct (String.eqb_spec (path file) "__proto__"); congruence.
Qed.

Lemma reachable_no_proto (w : World R) :
  reachable w -> files_or_empty w !! "__proto__" = None.
Proof.
  induction 1 as [w [_ Hf] | w op Hw IH].
  - unfold files_or_empty, object_at.
    destruct (files (state_data w)) as [l|]; [now rewrite Hf | reflexivity].
  - pose proof (reachable_files_allocated w Hw) as Ha.
    destruct op as [id step [command | batch | paths] | result network];
      cbn [perform call_tool].
    + destruct (terminal_same_shared id command step w) as (Hh & Hd & _).
      now rewrite (files_or_empty_same w _ Hh (f_equal files Hd)).
    + destruct (createOrUpdateFiles_atomic id batch step w Ha) as [-> | ->]; [exact IH|].
      now rewrite apply_batch_lookup, last_write_own_proto.
    + destruct (readFiles_same_shared id paths step w) as (Hh & Hd & _).
      now rewrite (files_or_empty_same w _ Hh (f_equal files Hd)).
    + destruct (onResponse_files result network w) as (Hh & Hf).
      now rewrite (files_or_empty_same w _ Hh Hf).
Qed.

(** X6. In a state a run can reach, a call of createOrUpdateFiles that
    succeeds leaves in the shared file-set what was there with the entries
    of the batch applied in order, those with the path [__proto__] left
    out: assigning that key creates no property, so the file-set never
    holds it. *)
Theorem createOrUpdateFiles_records_own_entries (id : string) (batch : list FileEntry)
    (w : World R) :
  reachable w ->
  batch_succeeds id batch w = true ->
  files_or_empty (snd (createOrUpdateFiles id batch (Some InngestStep) w))
  = apply_batch (files_or_empty w)
      (List.filter (fun file => negb (String.eqb (path file) "__proto__")) batch) /\
  files_or_empty (snd (createOrUpdateFiles id batch (Some InngestStep) w)) !! "__proto__"
  = None.
Proof.
  intros Hw Hok. split.
  - destruct (createOrUpdateFiles_success id batch w (reachable_files_allocated w Hw) Hok)
      as (l & _ & _ & ->). reflexivity.
  - apply (reachable_no_proto _
             (reachable_perform w
                (DoTool id (Some InngestStep) (CallCreateOrUpdateFiles batch)) Hw)).
Qed.

Lemma perform_router_halted (op : Operation) (w : World R) :
  router (state_data w) = None -> router (state_data (perform op w)) = None.
Proof.
  unfold router. intros Hhalt.
  destruct (perform_summary op w) as [-> | (text & -> & Hin)]; [exact Hhalt|].
  apply includes_contains, tag_nonempty, truthy_Some in Hin. now rewrite Hin.
Qed.

(** X9. Once the router halts it keeps halting: no sequence of tool calls
    and hook calls brings the shared state back to one on which the router
    selects the agent. *)
Theorem router_stays_halted (ops : list Operation) (w : World R) :
  router (state_data w) = None ->
  router (state_data (perform_all ops w)) = None.
Proof.
  revert w. induction ops as [|op ops IH]; intros w Hw; [exact Hw|].
  cbn [perform_all fold_left]. apply IH. now apply perform_router_halted.
Qed.

(** X8. The hook and the router together: a turn whose last plain-text
    message carries the tag makes the router halt at its next call; a turn
    without one, on a shared state without summary, makes it select
    [codeAgent] again. *)
Theorem onResponse_then_router (result : AgentResult) (w : World R) :
  (forall text,
     lastAssistantTextMessageContent result = Some text ->
     contains text task_summary_tag ->
     router (state_data (snd (onResponse result (Some TheNetwork) w))) = None) /\
  (summary (state_data w) = None ->
   ~ (exists text, lastAssistantTextMessageContent result = Some text /\
                   contains text task_summary_tag) ->
   router (state_data (snd (onResponse result (Some TheNetwork) w))) = Some codeAgent).
Proof.
  rewrite onResponse_cases. cbn [snd]. unfold router. split.
  - intros text -> Hc. pose proof (tag_nonempty text Hc) as Hne.
    apply includes_contains in Hc. rewrite Hc. cbn [state_data set_state_data summary].
    apply truthy_Some in Hne. now rewrite Hne.
  - intros Hnone Hno.
    destruct (lastAssistantTextMessageContent result) as [text|]; [|now rewrite Hnone].
    destruct (includes text task_summary_tag) eqn:E; [|now rewrite Hnone].
    exfalso. apply Hno. exists text. split; [reflexivity | now apply includes_contains].
Qed.

(** ** What the readFiles tool returns *)

Lemma set_remote_same (w : World R) : set_remote (remote w) w = w.
Proof. now destruct w. Qed.

(** The loop of readFiles is the reads of the sandbox, added to what has
    been read so far. *)
Lemma read_each_reads (sandbox : Sandbox) (paths : list string)
    (contents : list (string * string)) (w : World R) :
  read_each sandbox paths contents w =
  match sandbox_reads sandbox paths (remote w) with
  | (Return more, r) => (Return (contents ++ more), set_remote r w)
  | (Throw e, r) => (Throw e, set_remote r w)
  end.
Proof.
  revert contents w. induction paths as [|file rest IH]; intros contents w.
  - cbn. now rewrite app_nil_r, set_remote_same.
  - cbn [read_each sandbox_reads]. unfold bind, call_provider.
    destruct (files_read sandbox file (remote w)) as [[c|e] r]; [|reflexivity].
    rewrite IH. cbn [remote set_remote].
    destruct (sandbox_reads sandbox rest r) as [[more|e] r']; [|reflexivity].
    now rewrite <- List.app_assoc.
Qed.

Lemma sandbox_reads_paths (sandbox : Sandbox) (paths : list string) (r : R)
    (contents : list (string * string)) :
  fst (sandbox_reads sandbox paths r) = Return contents -> contents.*1 = paths.
Proof.
  revert r contents. induction paths as [|p rest IH]; intros r contents.
  - cbn. now intros [= <-].
  - cbn [sandbox_reads].
    destruct (files_read sandbox p r) as [[c|e] r']; [|discriminate].
    specialize (IH r').
    destruct (sandbox_reads sandbox rest r') as [[more|e] r'']; [|discriminate].
    cbn. intros [= <-]. cbn. now rewrite (IH more eq_refl).
Qed.

(** X1. The readFiles tool answers with all or nothing.  It connects, then
    reads the requested paths one after the other, each from the provider
    state the read before it left.  If connecting throws, or a read throws,
    the answer is ["Error: "] followed by that exception, with none of the
    contents read before it, and no later path is read.  Otherwise the
    answer is the JSON text of the contents read, which has exactly the
    requested paths, in request order.  Nothing but the provider state
    changes. *)
Theorem readFiles_all_or_nothing (id : string) (paths : list string) (w : World R) :
  match Sandbox_connect id (remote w) with
  | (Throw e, r1) =>
      readFiles id paths (Some InngestStep) w
      = (Return (Str ("Error: " +:+ e)), set_remote r1 w)
  | (Return sandbox, r1) =>
      match sandbox_reads sandbox paths r1 with
      | (Return contents, r2) =>
          readFiles id paths (Some InngestStep) w
          = (Return (Str (Json.stringify contents)), set_remote r2 w) /\
          contents.*1 = paths
      | (Throw e, r2) =>
          readFiles id paths (Some InngestStep) w
          = (Return (Str ("Error: " +:+ e)), set_remote r2 w)
      end
  end.
Proof.
  rewrite readFiles_run.
  unfold readFiles_step, try_catch, bind, getSandbox, call_provider.
  destruct (Sandbox_connect id (remote w)) as [[sandbox|e] r1]; [|reflexivity].
  rewrite read_each_reads. cbn [remote set_remote].
  pose proof (sandbox_reads_paths sandbox paths r1) as Hpaths.
  destruct (sandbox_reads sandbox paths r1) as [[contents|e] r2]; [|reflexivity].
  split; [reflexivity | now apply Hpaths].
Qed.

(** ** What the terminal tool logs *)

(** X2. The terminal tool writes to the console exactly when it reports a
    failure: one line, the very string it returns.  A command that succeeds
    logs nothing. *)
Theorem terminal_logs_failures (id command : string) (w : World R) :
  match Sandbox_connect id (remote w) with
  | (Return sandbox, r1) =>
      match commands_run sandbox command r1 with
      | (_, Return _, _) =>
          console (snd (terminal id command (Some InngestStep) w)) = console w
      | (_, Throw _, _) =>
          exists report,
            fst (terminal id command (Some InngestStep) w) = Return (Str report) /\
            console (snd (terminal id command (Some InngestStep) w)) = console w ++ [report]
      end
  | (Throw _, _) =>
      exists report,
        fst (terminal id command (Some InngestStep) w) = Return (Str report) /\
        console (snd (terminal id command (Some InngestStep) w)) = console w ++ [report]
  end.
Proof.
  unfold terminal, optional_step_run, step_run. rewrite terminal_step_cases.
  destruct (Sandbox_connect id (remote w)) as [[sandbox|e] r1]; [|cbn; eauto].
  destruct (commands_run sandbox command r1) as [[chunks [result|e]] r2]; cbn; eauto.
Qed.

(** ** Tools that read the sandbox only *)

Lemma read_each_remote (sandbox : Sandbox) (paths : list string)
    (contents : list (string * string)) (w1 w2 : World R) :
  remote w1 = remote w2 ->
  fst (read_each sandbox paths contents w1) = fst (read_each sandbox paths contents w2) /\
  remote (snd (read_each sandbox paths contents w1))
  = remote (snd (read_each sandbox paths contents w2)).
Proof.
  revert contents w1 w2. induction paths as [|file rest IH]; intros contents w1 w2 Hr.
  - now split.
  - cbn [read_each]. unfold bind, call_provider. rewrite Hr.
    destruct (files_read sandbox file (remote w2)) as [[c|e] r]; [|now split].
    now apply IH.
Qed.

(** X12. What the terminal tool and the readFiles tool return, and the state
    they leave the sandbox provider in, depend on the provider alone: the
    shared state, and so a file recorded there but absent from the sandbox,
    has no part in the answer. *)
Theorem tools_answer_from_sandbox (id : string) (step : option StepTools) (w1 w2 : World R) :
  remote w1 = remote w2 ->
  (forall command,
     fst (terminal id command step w1) = fst (terminal id command step w2) /\
     remote (snd (terminal id command step w1)) = remote (snd (terminal id command step w2))) /\
  (forall paths,
     fst (readFiles id paths step w1) = fst (readFiles id paths step w2) /\
     remote (snd (readFiles id paths step w1)) = remote (snd (readFiles id paths step w2))).
Proof.
  intros Hr. split.
  - intros command. unfold terminal, optional_step_run, step_run.
    destruct step as [[]|]; [|now split].
    rewrite !terminal_step_cases, Hr.
    destruct (Sandbox_connect id (remote w2)) as [[sandbox|e] r1]; [|now split].
    destruct (commands_run sandbox command r1) as [[chunks [result|e]] r2]; now split.
  - intros paths. unfold readFiles, optional_step_run, step_run.
    destruct step as [[]|]; [|now split].
    unfold readFiles_step, try_catch, bind, getSandbox, call_provider. rewrite Hr.
    destruct (Sandbox_connect id (remote w2)) as [[sandbox|e] r1]; [|now split].
    destruct (read_each_remote sandbox paths [] (set_remote r1 w1) (set_remote r1 w2) eq_refl)
      as [Hfst Hsnd].
    destruct (read_each sandbox paths [] (set_remote r1 w1)) as [[c1|e1] w1'],
             (read_each sandbox paths [] (set_remote r1 w2)) as [[c2|e2] w2'];
      cbn [fst snd] in *; try discriminate; cbn; split; congruence.
Qed.

(** ** The function as a whole *)


(** X11. What a completed run returns: the title [Fragment], the file-set
    and the summary of the final shared state, also when the run is
    classified as an error, and the URL [https://] followed by the host of
    port 3000 of the sandbox the run itself created. *)
Theorem run_output_reflects_state (llm : string -> nat -> Turn) (event : Event)
    (w : World R) (out : RunOutput) (w' : World R) :
  codeAgentFunction llm event w = (Return out, w') ->
  out_title out = "Fragment" /\
  out_files out = files_value w' /\
  out_summary out = summary (state_data w') /\
  exists created r0 sandbox r,
    Sandbox_create "lovableclone-test16" (remote w) = (Return created, r0) /\
    Sandbox_connect (sandboxId created) r = (Return sandbox, remote w') /\
    out_sandboxUrl out = "https://" +:+ getHost sandbox 3000 (remote w').
Proof.
  rewrite codeAgentFunction_cases.
  destruct (Sandbox_create "lovableclone-test16" (remote w)) as [[created|e0] r0];
    [|discriminate].
  destruct (network_run (sandboxId created) (llm (data_value event)) (set_remote r0 w))
    as [[o|e] w2]; [|discriminate].
  destruct (Sandbox_connect (sandboxId created) (remote w2)) as [[sandbox|e3] r3] eqn:Hconn;
    [|discriminate].
  cbn zeta. intros [= <- <-]. rewrite save_result_cases. cbn.
  repeat split. exists created, r0, sandbox, (remote w2). now repeat split.
Qed.

(** X13. A message stored for a run that is not classified as an error has
    type RESULT, a non-empty content, namely the summary, and a fragment
    whose file-set is the shared one and is not empty. *)
Theorem result_message_is_complete (event : Event) (url : string) (w : World R) :
  isError w = false ->
  exists s m,
    s <> "" /\ m <> ∅ /\
    summary (state_data w) = Some s /\
    files_or_empty w = m /\
    fst (save_result event (isError w) url w)
    = Return (mkMessageData (data_projectId event) (Some s) "ASSISTANT" "RESULT"
                (Some (mkFragment url "Fragment" (Some m)))).
Proof.
  intros Herr. rewrite save_result_cases, Herr. cbn [fst].
  unfold isError in Herr. apply orb_false_iff in Herr as [Hsum Hkeys].
  apply negb_false_iff, truthy_is_Some in Hsum as (s & Hs & Hne).
  assert (Hm : files_or_empty w <> ∅).
  { intros Hempty. apply Object_keys_empty in Hempty. congruence. }
  exists s, (files_or_empty w). repeat split; try assumption.
  rewrite Hs. unfold files_value. unfold files_or_empty in *.
  destruct (files (state_data w)) as [l|]; [reflexivity | congruence].
Qed.

End MoreProperties.

(** ** The further properties on the two providers *)

Import Offline.
Import Expired.

Lemma createOrUpdateFiles_records_own_entries_witness :
  reachable hello_world /\
  batch_succeeds "sbx-1" (proto_batch ++ update_batch) hello_world = true /\
  files_or_empty
    (snd (createOrUpdateFiles "sbx-1" (proto_batch ++ update_batch) (Some InngestStep)
            hello_world))
  = apply_batch (files_or_empty hello_world)
      (List.filter (fun file => negb (String.eqb (path file) "__proto__"))
         (proto_batch ++ update_batch)) /\
  files_or_empty
    (snd (createOrUpdateFiles "sbx-1" (proto_batch ++ update_batch) (Some InngestStep)
            hello_world)) !! "__proto__"
  = None.
Proof.
  assert (Hr : reachable hello_world).
  { apply (reachable_perform world0
             (DoTool "sbx-1" (Some InngestStep) (CallCreateOrUpdateFiles hello_batch))).
    apply reachable_initial. split; [reflexivity | exact I]. }
  assert (Hok : batch_succeeds "sbx-1" (proto_batch ++ update_batch) hello_world = true)
    by (vm_compute; reflexivity).
  split; [exact Hr|]. split; [exact Hok|].
  apply (createOrUpdateFiles_records_own_entries "sbx-1" (proto_batch ++ update_batch)
           hello_world Hr Hok).
Defined.

(** The sandbox receives the entry named [__proto__]; the file-set does not. *)
Lemma proto_entry_written_not_recorded :
  remote (snd (createOrUpdateFiles "sbx-1" (proto_batch ++ update_batch) (Some InngestStep)
                 hello_world)) !! "__proto__" = Some "x" /\
  files_or_empty
    (snd (createOrUpdateFiles "sbx-1" (proto_batch ++ update_batch) (Some InngestStep)
            hello_world))
  = {[ "index.html" := "<h1>Hi</h1>"; "app/page.tsx" := "v2" ]}.
Proof. split; vm_compute; reflexivity. Qed.

Lemma createOrUpdateFiles_other_paths_witness :
  files_allocated hello_world /\
  ("index.html" ∉ path <$> failing_batch) /\
  files_or_empty (snd (createOrUpdateFiles "sbx-1" failing_batch (Some InngestStep) hello_world))
    !! "index.html"
  = files_or_empty hello_world !! "index.html".
Proof.
  assert (Hw : files_allocated hello_world) by (vm_compute; lia).
  assert (Hp : "index.html" ∉ path <$> failing_batch).
  { intros Hin. cbn in Hin. repeat (apply elem_of_cons in Hin as [Heq | Hin]; [discriminate|]).
    now apply elem_of_nil in Hin. }
  split; [exact Hw|]. split; [exact Hp|].
  apply (createOrUpdateFiles_other_paths "sbx-1" failing_batch (Some InngestStep)
           hello_world "index.html" Hw Hp).
Defined.

Lemma createOrUpdateFiles_retry_witness :
  files_allocated world0 /\
  batch_succeeds "sbx-1" update_batch world0 = true /\
  batch_succeeds "sbx-1" update_batch
    (snd (createOrUpdateFiles "sbx-1" update_batch (Some InngestStep) world0)) = true /\
  files_or_empty
    (snd (createOrUpdateFiles "sbx-1" update_batch (Some InngestStep)
            (snd (createOrUpdateFiles "sbx-1" update_batch (Some InngestStep) world0))))
  = files_or_empty (snd (createOrUpdateFiles "sbx-1" update_batch (Some InngestStep) world0)).
Proof.
  assert (Hw : files_allocated world0) by exact I.
  assert (Hok1 : batch_succeeds "sbx-1" update_batch world0 = true) by reflexivity.
  assert (Hok2 : batch_succeeds "sbx-1" update_batch
                   (snd (createOrUpdateFiles "sbx-1" update_batch (Some InngestStep) world0))
                 = true) by (vm_compute; reflexivity).
  split; [exact Hw|]. split; [exact Hok1|]. split; [exact Hok2|].
  apply (createOrUpdateFiles_retry "sbx-1" update_batch world0 Hw Hok1 Hok2).
Defined.

Lemma files_never_removed_witness :
  reachable hello_world /\
  dom (files_or_empty hello_world)
  ⊆ dom (files_or_empty
           (perform_all [DoTool "sbx-1" (Some InngestStep) (CallCreateOrUpdateFiles failing_batch);
                         DoOnResponse done_result (Some TheNetwork)] hello_world)).
Proof.
  assert (Hr : reachable hello_world).
  { apply (reachable_perform world0
             (DoTool "sbx-1" (Some InngestStep) (CallCreateOrUpdateFiles hello_batch))).
    apply reachable_initial. split; [reflexivity | exact I]. }
  split; [exact Hr|].
  apply (files_never_removed _ hello_world Hr).
Defined.

Lemma router_stays_halted_witness :
  router (state_data done_world) = None /\
  router (state_data
            (perform_all [DoTool "sbx-1" (Some InngestStep) (CallCreateOrUpdateFiles hello_batch);
                          DoOnResponse (mkAgentResult "code-agent"
                                          [TextMessage role_assistant "one more thing"])
                            (Some TheNetwork)] done_world)) = None.
Proof.
  assert (Hhalt : router (state_data done_world) = None) by reflexivity.
  split; [exact Hhalt|].
  apply (router_stays_halted _ done_world Hhalt).
Defined.

Lemma tools_answer_from_sandbox_witness :
  remote world0 = remote done_world /\
  (forall command,
     fst (terminal "sbx-1" command (Some InngestStep) world0)
     = fst (terminal "sbx-1" command (Some InngestStep) done_world) /\
     remote (snd (terminal "sbx-1" command (Some InngestStep) world0))
     = remote (snd (terminal "sbx-1" command (Some InngestStep) done_world))) /\
  (forall paths,
     fst (readFiles "sbx-1" paths (Some InngestStep) world0)
     = fst (readFiles "sbx-1" paths (Some InngestStep) done_world) /\
     remote (snd (readFiles "sbx-1" paths (Some InngestStep) world0))
     = remote (snd (readFiles "sbx-1" paths (Some InngestStep) done_world))).
Proof.
  assert (Hr : remote world0 = remote done_world) by reflexivity.
  split; [exact Hr|].
  apply (tools_answer_from_sandbox "sbx-1" (Some InngestStep) world0 done_world Hr).
Defined.


(** On the expired provider the model reports completion, yet the run ends
    in an exception and the message table stays empty. *)
Lemma expired_run_loses_summary :
  summary (state_data expired_after_run) = Some done_text /\
  messages (snd (codeAgentFunction hello_llm hello_event expired_world)) = [].
Proof. split; vm_compute; reflexivity. Qed.

Lemma run_output_reflects_state_witness :
  codeAgentFunction hello_llm hello_event world0 = (Return hello_output, hello_final) /\
  out_title hello_output = "Fragment" /\
  out_files hello_output = files_value hello_final /\
  out_summary hello_output = summary (state_data hello_final) /\
  exists created r0 sandbox r,
    Sandbox_create "lovableclone-test16" (remote world0) = (Return created, r0) /\
    Sandbox_connect (sandboxId created) r = (Return sandbox, remote hello_final) /\
    out_sandboxUrl hello_output = "https://" +:+ getHost sandbox 3000 (remote hello_final).
Proof.
  assert (Hrun : codeAgentFunction hello_llm hello_event world0
                 = (Return hello_output, hello_final)) by (vm_compute; reflexivity).
  split; [exact Hrun|].
  apply (run_output_reflects_state hello_llm hello_event world0 hello_output hello_final Hrun).
Defined.

(** A read of a path that only the shared state knows fails in the sandbox. *)
Lemma readFiles_unknown_to_sandbox :
  files_or_empty hello_world !! "index.html" = Some "<h1>Hello</h1>" /\
  fst (readFiles "sbx-1" ["index.html"] (Some InngestStep)
         (set_remote (∅ : gmap string string) hello_world))
  = Return (Str "Error: NotFoundError: no such file").
Proof. split; vm_compute; reflexivity. Qed.

Lemma result_message_is_complete_witness :
  isError hello_final = false /\
  exists s m,
    s <> "" /\ m <> ∅ /\
    summary (state_data hello_final) = Some s /\
    files_or_empty hello_final = m /\
    fst (save_result hello_event (isError hello_final) "https://3000-sbx-1.e2b.app" hello_final)
    = Return (mkMessageData (data_projectId hello_event) (Some s) "ASSISTANT" "RESULT"
                (Some (mkFragment "https://3000-sbx-1.e2b.app" "Fragment" (Some m)))).
Proof.
  assert (Herr : isError hello_final = false) by (vm_compute; reflexivity).
  split; [exact Herr|].
  apply (result_message_is_complete hello_event "https://3000-sbx-1.e2b.app" hello_final Herr).
Defined.
